(** * MasterShaderNodeGen: shader node graphs serialised to JSON documents

    A shallow embedding of [src/MasterShaderNodeGen.py].  The host
    application ([bpy]) is an external collaborator: its objects are records
    holding what the script reads from them, its document state (materials,
    console, files) is a record threaded through the two exporters. *)

From Stdlib Require Import String Ascii List Bool ZArith Arith Lia PrimFloat.
From Stdlib Require Import DecimalString Permutation Sorted OrderedTypeEx.
Import ListNotations.
Local Open Scope string_scope.
Local Open Scope list_scope.

(** ** Python values *)

(** The values the script meets: the JSON primitives, the built-in
    containers, and host objects.  A host object is known by what the script
    asks of it: the name of its class ([val.__class__.__name__]), its [name]
    attribute when it has one, whether it answers [__len__], and what
    [list(val)] yields ([None] when the conversion raises). *)
#[warnings="-register-all"]
Inductive value : Type :=
| VNone
| VBool (b : bool)
| VInt (z : Z)
| VFloat (f : float)
| VStr (s : string)
| VList (items : list value)
| VTuple (items : list value)
| VDict (items : list (string * value))
| VObj (cls : string) (name : option string) (len : bool)
       (iter : option (list value)).

(** Exceptions carry the text that [str(e)] prints. *)
Inductive exn : Type := Exception (msg : string).

Definition exn_msg (e : exn) : string := let (m) := e in m.

Inductive result (A : Type) : Type :=
| Ok (a : A)
| Raise (e : exn).

Arguments Ok {A} a.
Arguments Raise {A} e.

(** An attribute of a host object as [hasattr] and a read see it: absent
    ([AttributeError], so [hasattr] is [False]), raising something else
    (which [hasattr] lets through), or holding a value. *)
Inductive attr (A : Type) : Type :=
| Missing
| Failing (e : exn)
| Present (a : A).

Arguments Missing {A}.
Arguments Failing {A} e.
Arguments Present {A} a.

Module Res.

Definition bind {A B} (r : result A) (k : A -> result B) : result B :=
  match r with
  | Ok a => k a
  | Raise e => Raise e
  end.

Fixpoint mapM {A B} (f : A -> result B) (l : list A) : result (list B) :=
  match l with
  | [] => Ok []
  | x :: rest =>
      bind (f x) (fun y => bind (mapM f rest) (fun ys => Ok (y :: ys)))
  end.

(** [hasattr(o, a)]. *)
Definition hasattr {A} (a : attr A) : result bool :=
  match a with
  | Missing => Ok false
  | Failing e => Raise e
  | Present _ => Ok true
  end.

(** A plain read [o.a]. *)
Definition read {A} (a : attr A) : result A :=
  match a with
  | Missing => Raise (Exception "AttributeError")
  | Failing e => Raise e
  | Present x => Ok x
  end.

End Res.

Declare Scope res_scope.
Delimit Scope res_scope with res.
Notation "x <- c ;; k" := (Res.bind c (fun x => k))
  (at level 61, c at next level, right associativity) : res_scope.

(** ** Dictionaries

    A Python [dict] keeps its keys in insertion order; assigning to a key
    already present replaces the value where it stands. *)
Module Dict.

Definition t := list (string * value).

Fixpoint get (k : string) (d : t) : option value :=
  match d with
  | [] => None
  | (k', v) :: rest => if String.eqb k k' then Some v else get k rest
  end.

Fixpoint set (k : string) (v : value) (d : t) : t :=
  match d with
  | [] => [(k, v)]
  | (k', v') :: rest =>
      if String.eqb k k' then (k', v) :: rest else (k', v') :: set k v rest
  end.

Definition keys (d : t) : list string := map fst d.

Definition values (d : t) : list value := map snd d.

Definition has (k : string) (d : t) : bool :=
  match get k d with Some _ => true | None => false end.

End Dict.

(** [x in [..]] on strings. *)
Definition str_in (s : string) (l : list string) : bool :=
  existsb (String.eqb s) l.

(** ** Value Normalizer *)

(** [val.__class__.__name__]. *)
Definition class_name (val : value) : string :=
  match val with
  | VNone => "NoneType"
  | VBool _ => "bool"
  | VInt _ => "int"
  | VFloat _ => "float"
  | VStr _ => "str"
  | VList _ => "list"
  | VTuple _ => "tuple"
  | VDict _ => "dict"
  | VObj cls _ _ _ => cls
  end.

(** [getattr(val, 'name', default)]: the built-in values have no [name]. *)
Definition getattr_name (val : value) (default : string) : string :=
  match val with
  | VObj _ (Some n) _ _ => n
  | _ => default
  end.

(** [hasattr(val, "__len__")]. *)
Definition has_len (val : value) : bool :=
  match val with
  | VStr _ | VList _ | VTuple _ | VDict _ => true
  | VObj _ _ len _ => len
  | _ => false
  end.

(** [isinstance(val, str)]. *)
Definition is_str (val : value) : bool :=
  match val with VStr _ => true | _ => false end.

(** [isinstance(val, (bool, int, float, str))]. *)
Definition is_scalar (val : value) : bool :=
  match val with
  | VBool _ | VInt _ | VFloat _ | VStr _ => true
  | _ => false
  end.

Fixpoint chars (s : string) : list value :=
  match s with
  | EmptyString => []
  | String c rest => VStr (String c EmptyString) :: chars rest
  end.

(** [list(val)]; [None] when it raises.  A dict iterates over its keys. *)
Definition py_list (val : value) : option (list value) :=
  match val with
  | VList items | VTuple items => Some items
  | VDict items => Some (map (fun kv => VStr (fst kv)) items)
  | VStr s => Some (chars s)
  | VObj _ _ _ iter => iter
  | _ => None
  end.

Definition socket_reference_classes : list string :=
  ["Image"; "Object"; "Collection"; "Material"; "Texture"; "NodeTree"].

Definition property_reference_classes : list string :=
  ["CurveMapping"; "ColorMapping"; "Image"; "NodeTree"; "Object";
   "Collection"; "Material"; "Texture"].

(** Lines 11-33 of [get_socket_default_value], on the value read from the
    socket. *)
Definition normalize_socket_value (val : value) : value :=
  match val with
  | VNone => VNone
  | _ =>
      if str_in (class_name val) socket_reference_classes then
        VStr ("<" ++ class_name val ++ ": " ++ getattr_name val "unnamed" ++ ">")
      else if has_len val && negb (is_str val) then
        match py_list val with
        | Some items => VList items
        | None => VNone
        end
      else if is_scalar val then val
      else VNone
  end.

(** [is_json_serializable]. *)
Fixpoint is_json_serializable (val : value) : bool :=
  match val with
  | VNone | VBool _ | VInt _ | VFloat _ | VStr _ => true
  | VList items | VTuple items => forallb is_json_serializable items
  | VDict items =>
      forallb (fun kv => match kv with (_, v) => is_json_serializable v end)
              items
  | VObj _ _ _ _ => false
  end.

(** Lines 57-80 of [get_property_info], on the value read from the node:
    what ends up under [current_value]. *)
Definition normalize_property_value (current_val : value) : value :=
  if str_in (class_name current_val) property_reference_classes then
    VStr ("<" ++ class_name current_val ++ ">")
  else if has_len current_val && negb (is_str current_val) then
    match py_list current_val with
    | Some val_list =>
        if is_json_serializable (VList val_list) then VList val_list
        else VNone
    | None => VNone
    end
  else if is_json_serializable current_val then current_val
  else VNone.

(** ** Host objects: links, sockets, property descriptors, nodes *)

Record node_ref : Type := { nr_name : string }.

Record socket_ref : Type := { sr_name : string; sr_identifier : string }.

Record link : Type := {
  from_node : node_ref;
  from_socket : socket_ref;
  to_node : node_ref;
  to_socket : socket_ref;
  is_valid : bool;
  is_hidden : bool
}.

Record socket : Type := {
  s_name : string;
  s_identifier : string;
  s_type : string;
  s_default_value : attr value;
  s_enabled : bool;
  s_hide : bool;
  s_hide_value : bool;
  s_is_linked : bool;
  s_links : list link
}.

Record enum_item : Type := { ei_identifier : string }.

Record prop : Type := {
  p_identifier : string;
  p_name : string;
  p_type : string;
  p_description : string;
  p_enum_items : attr (list enum_item);
  p_array_length : attr Z;
  p_hard_min : attr value;
  p_hard_max : attr value
}.

(** A base class of a node class: [bl_rna.properties] when it has a
    [bl_rna]. *)
Record base : Type := { b_bl_rna : option (list prop) }.

Record ramp_element : Type := {
  re_position : value;
  re_color : list value;
  re_alpha : value
}.

Record color_ramp : Type := {
  cr_color_mode : string;
  cr_hue_interpolation : string;
  cr_interpolation : string;
  cr_elements : list ramp_element
}.

Record curve_point : Type := {
  cp_location : list value;
  cp_handle_type : string
}.

Record curve : Type := { cv_points : list curve_point }.

Record curve_mapping : Type := { cm_curves : list curve }.

Record image : Type := {
  img_name : string;
  img_filepath : string;
  img_size : list value;
  img_colorspace_name : string
}.

Record node : Type := {
  n_name : string;
  n_bl_idname : string;
  n_bl_label : string;
  n_type : string;
  n_label : string;
  n_location : list value;
  n_width : value;
  n_height : value;
  n_hide : bool;
  n_mute : bool;
  n_inputs : list socket;
  n_outputs : list socket;
  (** [type(node).__bases__] *)
  n_bases : list base;
  (** [node.bl_rna.properties] *)
  n_properties : list prop;
  (** what [getattr(node, identifier)] does, per identifier *)
  n_attrs : list (string * result value);
  n_color_ramp : attr color_ramp;
  n_mapping : attr curve_mapping;
  (** [node.image]; [None] when the slot is empty *)
  n_image : attr (option image)
}.

(** ** get_socket_default_value *)

Definition get_socket_default_value (s : socket) : result value :=
  (has <- Res.hasattr (s_default_value s) ;;
   if negb has then Ok VNone
   else
     val <- Res.read (s_default_value s) ;;
     Ok (normalize_socket_value val))%res.

(** ** get_property_info *)

(** [getattr(node, identifier)]. *)
Fixpoint lookup_attr (k : string) (l : list (string * result value))
  : result value :=
  match l with
  | [] => Raise (Exception "AttributeError")
  | (k', r) :: rest => if String.eqb k k' then r else lookup_attr k rest
  end.

Definition getattr_node (n : node) (identifier : string) : result value :=
  lookup_attr identifier (n_attrs n).

(** The [try] block of lines 54-82: every failure ends in [None]. *)
Definition current_value (n : node) (p : prop) : value :=
  match getattr_node n (p_identifier p) with
  | Ok current_val => normalize_property_value current_val
  | Raise _ => VNone
  end.

(** [if hasattr(prop, a): prop_info[key] = prop.a]. *)
Definition set_if_present (key : string) (a : attr value) (d : Dict.t)
  : result Dict.t :=
  (has <- Res.hasattr a ;;
   if has then (v <- Res.read a ;; Ok (Dict.set key v d)) else Ok d)%res.

Definition get_property_info (n : node) (p : prop) : result value :=
  (let prop_info :=
     [("identifier", VStr (p_identifier p));
      ("name", VStr (p_name p));
      ("type", VStr (p_type p));
      ("description", VStr (p_description p))] in
   let prop_info := Dict.set "current_value" (current_value n p) prop_info in
   prop_info <-
     (if String.eqb (p_type p) "ENUM" then
        items <- Res.read (p_enum_items p) ;;
        Ok (Dict.set "enum_items"
              (VList (map (fun item => VStr (ei_identifier item)) items))
              prop_info)
      else Ok prop_info) ;;
   prop_info <-
     (if str_in (p_type p) ["FLOAT"; "INT"] then
        has <- Res.hasattr (p_array_length p) ;;
        prop_info <-
          (if has then
             len <- Res.read (p_array_length p) ;;
             if (len >? 0)%Z then Ok (Dict.set "array_length" (VInt len) prop_info)
             else Ok prop_info
           else Ok prop_info) ;;
        prop_info <- set_if_present "min" (p_hard_min p) prop_info ;;
        set_if_present "max" (p_hard_max p) prop_info
      else Ok prop_info) ;;
   Ok (VDict prop_info))%res.

(** ** export_node_to_dict *)

(** One entry of an input socket's [links]. *)
Definition input_link_ref (l : link) : value :=
  VDict [("from_node", VStr (nr_name (from_node l)));
         ("from_socket", VStr (sr_name (from_socket l)))].

(** One entry of an output socket's [links]. *)
Definition output_link_ref (l : link) : value :=
  VDict [("to_node", VStr (nr_name (to_node l)));
         ("to_socket", VStr (sr_name (to_socket l)))].

(** [if s.is_linked: socket_data["is_linked"] = True; socket_data["links"] =
    [...]]. *)
Definition attach_links (ref : link -> value) (s : socket) (socket_data : Dict.t)
  : Dict.t :=
  if s_is_linked s then
    Dict.set "links" (VList (map ref (s_links s)))
      (Dict.set "is_linked" (VBool true) socket_data)
  else socket_data.

(** The body of the loop over [node.inputs], lines 115-136. *)
Definition input_socket_data (inp : socket) : result value :=
  (default_value <- get_socket_default_value inp ;;
   let socket_data :=
     [("name", VStr (s_name inp));
      ("identifier", VStr (s_identifier inp));
      ("type", VStr (s_type inp));
      ("default_value", default_value);
      ("enabled", VBool (s_enabled inp));
      ("hide", VBool (s_hide inp));
      ("hide_value", VBool (s_hide_value inp))] in
   Ok (VDict (attach_links input_link_ref inp socket_data)))%res.

(** The body of the loop over [node.outputs], lines 139-156. *)
Definition output_socket_data (out : socket) : result value :=
  (default_value <- get_socket_default_value out ;;
   let socket_data :=
     [("name", VStr (s_name out));
      ("identifier", VStr (s_identifier out));
      ("type", VStr (s_type out));
      ("default_value", default_value);
      ("enabled", VBool (s_enabled out));
      ("hide", VBool (s_hide out))] in
   Ok (VDict (attach_links output_link_ref out socket_data)))%res.

(** Lines 158-162 (and 313-317): the identifiers declared on the bases that
    have a [bl_rna].  The set is only asked for membership. *)
Definition parent_props (bases : list base) : list string :=
  flat_map
    (fun b =>
       match b_bl_rna b with
       | Some props => map p_identifier props
       | None => []
       end)
    bases.

Definition skipped_identifiers : list string :=
  ["rna_type"; "dimensions"; "internal_links"].

(** The two [continue] guards shared by both property loops. *)
Definition skip_property (parents : list string) (p : prop) : bool :=
  str_in (p_identifier p) parents || str_in (p_identifier p) skipped_identifiers.

(** Lines 164-173: the property loop of the material path; a failure of
    [get_property_info] is passed over in silence. *)
Fixpoint node_properties (n : node) (parents : list string) (props : list prop)
  (properties : Dict.t) : Dict.t :=
  match props with
  | [] => properties
  | p :: rest =>
      if skip_property parents p then node_properties n parents rest properties
      else
        match get_property_info n p with
        | Ok info =>
            node_properties n parents rest
              (Dict.set (p_identifier p) info properties)
        | Raise _ => node_properties n parents rest properties
        end
  end.

Definition ramp_element_data (elem : ramp_element) : value :=
  VDict [("position", re_position elem);
         ("color", VList (re_color elem));
         ("alpha", re_alpha elem)].

Definition curve_point_data (point : curve_point) : value :=
  VDict [("location", VList (cp_location point));
         ("handle_type", VStr (cp_handle_type point))].

Definition curve_data (c : curve) : value :=
  VDict [("points", VList (map curve_point_data (cv_points c)))].

(** Lines 175-209: the block added for a colour ramp, RGB curves or an image
    texture. *)
Definition type_specific (n : node) (node_data : Dict.t) : result Dict.t :=
  (if String.eqb (n_type n) "VALTORGB" then
     ramp <- Res.read (n_color_ramp n) ;;
     let ramp_data :=
       [("color_mode", VStr (cr_color_mode ramp));
        ("hue_interpolation", VStr (cr_hue_interpolation ramp));
        ("interpolation", VStr (cr_interpolation ramp));
        ("elements", VList (map ramp_element_data (cr_elements ramp)))] in
     Ok (Dict.set "color_ramp" (VDict ramp_data) node_data)
   else if String.eqb (n_type n) "CURVE_RGB" then
     mapping <- Res.read (n_mapping n) ;;
     Ok (Dict.set "curves" (VList (map curve_data (cm_curves mapping))) node_data)
   else if String.eqb (n_type n) "TEX_IMAGE" then
     img <- Res.read (n_image n) ;;
     match img with
     | Some i =>
         Ok (Dict.set "image"
               (VDict [("name", VStr (img_name i));
                       ("filepath", VStr (img_filepath i));
                       ("size", VList (img_size i));
                       ("colorspace_settings",
                        VDict [("name", VStr (img_colorspace_name i))])])
               node_data)
     | None => Ok node_data
     end
   else Ok node_data)%res.

Definition export_node_to_dict (n : node) : result value :=
  (inputs <- Res.mapM input_socket_data (n_inputs n) ;;
   outputs <- Res.mapM output_socket_data (n_outputs n) ;;
   let properties :=
     node_properties n (parent_props (n_bases n)) (n_properties n) [] in
   let node_data :=
     [("name", VStr (n_name n));
      ("bl_idname", VStr (n_bl_idname n));
      ("type", VStr (n_type n));
      ("label", VStr (n_label n));
      ("location", VList (n_location n));
      ("width", n_width n);
      ("height", n_height n);
      ("hide", VBool (n_hide n));
      ("mute", VBool (n_mute n));
      ("inputs", VList inputs);
      ("outputs", VList outputs);
      ("properties", VDict properties)] in
   node_data <- type_specific n node_data ;;
   Ok (VDict node_data))%res.

(** ** The host document *)

Record node_tree : Type := {
  nt_nodes : list node;
  nt_links : list link
}.

(** A material; [mat_id] stands for the identity of the host object, which
    is what [bpy.data.materials.remove] goes by. *)
Record material : Type := {
  mat_id : nat;
  mat_name : string;
  mat_use_nodes : bool;
  mat_blend_method : string;
  mat_use_backface_culling : bool;
  mat_node_tree : node_tree
}.

(** What a path holds after [json.dump(doc, f, indent=..)]; [Partial] is the
    file left behind when [json.dump] raises halfway. *)
Inductive file : Type :=
| JsonFile (doc : value) (indent : nat)
| Partial.

(** A class found in [bpy.types]: its [__name__], whether it is a subclass
    of [bpy.types.Node], what [is_registered_node_type()] answers, its
    [__bases__], and what [nodes.new(type=__name__)] does. *)
Record node_class : Type := {
  cls_name : string;
  cls_is_node : bool;
  cls_registered : bool;
  cls_bases : list base;
  cls_new : result node
}.

(** An attribute of [bpy.types]. *)
Inductive type_attr : Type :=
| NotAClass
| AClass (c : node_class).

Record world : Type := {
  materials : list material;
  console : list string;
  files : list (string * file);
  (** paths that [open(path, "w")] refuses *)
  unwritable : list string;
  (** [dir(bpy.types)] with [getattr(bpy.types, name)] *)
  types : list (string * type_attr);
  (** [bpy.app.version] *)
  version : list nat
}.

Module Host.

Definition print (line : string) (w : world) : world :=
  {| materials := materials w; console := console w ++ [line];
     files := files w; unwritable := unwritable w; types := types w;
     version := version w |}.

Definition print_all (lines : list string) (w : world) : world :=
  {| materials := materials w; console := console w ++ lines;
     files := files w; unwritable := unwritable w; types := types w;
     version := version w |}.

Definition set_materials (ms : list material) (w : world) : world :=
  {| materials := ms; console := console w;
     files := files w; unwritable := unwritable w; types := types w;
     version := version w |}.

Fixpoint set_file (path : string) (f : file) (fs : list (string * file))
  : list (string * file) :=
  match fs with
  | [] => [(path, f)]
  | (p, g) :: rest =>
      if String.eqb path p then (p, f) :: rest
      else (p, g) :: set_file path f rest
  end.

Definition write_file (path : string) (f : file) (w : world) : world :=
  {| materials := materials w; console := console w;
     files := set_file path f (files w); unwritable := unwritable w;
     types := types w; version := version w |}.

(** [bpy.data.materials.get(name)]. *)
Definition materials_get (name : string) (w : world) : option material :=
  find (fun m => String.eqb (mat_name m) name) (materials w).

Definition fresh_id (ms : list material) : nat :=
  S (fold_right Nat.max 0 (map mat_id ms)).

(** [bpy.data.materials.new(name)]: a new material at the end of the
    collection, node shading off, its tree empty. *)
Definition materials_new (name : string) (w : world) : material * world :=
  let m := {| mat_id := fresh_id (materials w); mat_name := name;
              mat_use_nodes := false; mat_blend_method := "OPAQUE";
              mat_use_backface_culling := false;
              mat_node_tree := {| nt_nodes := []; nt_links := [] |} |} in
  (m, set_materials (materials w ++ [m]) w).

(** [bpy.data.materials.remove(m)]. *)
Definition materials_remove (m : material) (w : world) : world :=
  set_materials
    (filter (fun m' => negb (Nat.eqb (mat_id m') (mat_id m))) (materials w)) w.

(** Apply [f] to the material that [m] refers to. *)
Definition update_material (m : material) (f : material -> material)
  (w : world) : world :=
  set_materials
    (map (fun m' => if Nat.eqb (mat_id m') (mat_id m) then f m' else m')
         (materials w)) w.

(** [m.use_nodes = True]. *)
Definition set_use_nodes (m : material) (w : world) : world :=
  update_material m
    (fun m' => {| mat_id := mat_id m'; mat_name := mat_name m';
                  mat_use_nodes := true;
                  mat_blend_method := mat_blend_method m';
                  mat_use_backface_culling := mat_use_backface_culling m';
                  mat_node_tree := mat_node_tree m' |}) w.

Definition set_tree (t : node_tree) (m' : material) : material :=
  {| mat_id := mat_id m'; mat_name := mat_name m';
     mat_use_nodes := mat_use_nodes m';
     mat_blend_method := mat_blend_method m';
     mat_use_backface_culling := mat_use_backface_culling m';
     mat_node_tree := t |}.

(** [m.node_tree.nodes.clear()]: the links go with the nodes. *)
Definition nodes_clear (m : material) (w : world) : world :=
  update_material m (set_tree {| nt_nodes := []; nt_links := [] |}) w.

(** [m.node_tree.nodes.new(type=c.__name__)]. *)
Definition nodes_new (m : material) (c : node_class) (w : world)
  : result node * world :=
  match cls_new c with
  | Ok n =>
      (Ok n,
       update_material m
         (fun m' =>
            set_tree {| nt_nodes := nt_nodes (mat_node_tree m') ++ [n];
                        nt_links := nt_links (mat_node_tree m') |} m') w)
  | Raise e => (Raise e, w)
  end.

(** [with open(path, "w") as f: json.dump(doc, f, indent=indent)].  The
    [json] module writes exactly the values [is_json_serializable]
    accepts (the keys of a [VDict] are strings). *)
Definition json_dump_to (path : string) (doc : value) (indent : nat)
  (w : world) : result unit * world :=
  if str_in path (unwritable w) then (Raise (Exception "OSError"), w)
  else if is_json_serializable doc then
    (Ok tt, write_file path (JsonFile doc indent) w)
  else (Raise (Exception "TypeError"), write_file path Partial w).

End Host.

(** [if filepath:] *)
Definition truthy_path (filepath : option string) : option string :=
  match filepath with
  | Some "" => None
  | other => other
  end.

Definition str_of_nat (n : nat) : string :=
  NilEmpty.string_of_uint (Nat.to_uint n).

(** ** export_material_nodes_to_json *)

Definition link_data (l : link) : value :=
  VDict [("from_node", VStr (nr_name (from_node l)));
         ("from_socket", VStr (sr_name (from_socket l)));
         ("from_socket_identifier", VStr (sr_identifier (from_socket l)));
         ("to_node", VStr (nr_name (to_node l)));
         ("to_socket", VStr (sr_name (to_socket l)));
         ("to_socket_identifier", VStr (sr_identifier (to_socket l)));
         ("is_valid", VBool (is_valid l));
         ("is_hidden", VBool (is_hidden l))].

(** The result is [Ok None] for Python's [return None]. *)
Definition export_material_nodes_to_json (material_name : string)
  (filepath : option string) (w : world) : result (option value) * world :=
  match Host.materials_get material_name w with
  | None =>
      (Ok None, Host.print ("Material '" ++ material_name ++ "' not found") w)
  | Some material =>
      if negb (mat_use_nodes material) then
        (Ok None,
         Host.print ("Material '" ++ material_name ++ "' doesn't use nodes") w)
      else
        let node_tree := mat_node_tree material in
        match Res.mapM export_node_to_dict (nt_nodes node_tree) with
        | Raise e => (Raise e, w)
        | Ok nodes =>
            let export_data :=
              VDict [("material_name", VStr material_name);
                     ("blend_method", VStr (mat_blend_method material));
                     ("use_backface_culling",
                      VBool (mat_use_backface_culling material));
                     ("nodes", VList nodes);
                     ("links", VList (map link_data (nt_links node_tree)))] in
            match truthy_path filepath with
            | Some path =>
                match Host.json_dump_to path export_data 2 w with
                | (Ok _, w1) =>
                    (Ok (Some export_data),
                     Host.print ("Exported material to " ++ path) w1)
                | (Raise e, w1) => (Raise e, w1)
                end
            | None => (Ok (Some export_data), w)
            end
        end
  end.

(** ** generate_master_shader_nodes_json *)

(** Lines 270-276: the candidate classes, in the order [dir(bpy.types)]
    lists them. *)
Definition shader_node_types (w : world) : list node_class :=
  flat_map
    (fun entry =>
       match entry with
       | (attr_name, AClass c) =>
           if cls_is_node c then
             if String.prefix "ShaderNode" attr_name
                || String.prefix "ShaderNode" attr_name then
               if cls_registered c then [c] else []
             else []
           else []
       | (_, NotAClass) => []
       end)
    (types w).

(** [sorted(l, key=lambda x: x.__name__)]: stable, by code points. *)
Fixpoint insert_by_name (c : node_class) (l : list node_class)
  : list node_class :=
  match l with
  | [] => [c]
  | d :: rest =>
      if String.leb (cls_name c) (cls_name d) then c :: d :: rest
      else d :: insert_by_name c rest
  end.

Definition sorted_by_name (l : list node_class) : list node_class :=
  fold_right insert_by_name [] l.

(** Lines 296-303. *)
Definition catalog_input_info (inp : socket) : result value :=
  (default_value <- get_socket_default_value inp ;;
   Ok (VDict [("name", VStr (s_name inp));
              ("type", VStr (s_type inp));
              ("identifier", VStr (s_identifier inp));
              ("default_value", default_value)]))%res.

(** Lines 305-311. *)
Definition catalog_output_info (out : socket) : value :=
  VDict [("name", VStr (s_name out));
         ("type", VStr (s_type out));
         ("identifier", VStr (s_identifier out))].

Definition property_failure_line (p : prop) (c : node_class) (e : exn)
  : string :=
  "Could not get property " ++ p_identifier p ++ " for " ++ cls_name c
  ++ ": " ++ exn_msg e.

Definition class_failure_line (c : node_class) (e : exn) : string :=
  "Could not process " ++ cls_name c ++ ": " ++ exn_msg e.

(** Lines 319-330: the property loop of the catalog path.  It yields the
    list under [properties] and the lines it prints. *)
Fixpoint catalog_properties (c : node_class) (n : node) (parents : list string)
  (props : list prop) : list value * list string :=
  match props with
  | [] => ([], [])
  | p :: rest =>
      let (infos, lines) := catalog_properties c n parents rest in
      if skip_property parents p then (infos, lines)
      else
        match get_property_info n p with
        | Ok info => (info :: infos, lines)
        | Raise e => (infos, property_failure_line p c e :: lines)
        end
  end.

(** Lines 286-330, after the node is made: the entry of one class and the
    lines printed on the way.  Only the input loop can raise, and it runs
    before anything is printed. *)
Definition node_info (c : node_class) (n : node)
  : result (value * list string) :=
  (inputs <- Res.mapM catalog_input_info (n_inputs n) ;;
   let outputs := map catalog_output_info (n_outputs n) in
   let (properties, lines) :=
     catalog_properties c n (parent_props (cls_bases c)) (n_properties n) in
   Ok (VDict [("bl_idname", VStr (cls_name c));
              ("py_class_name", VStr (cls_name c));
              ("name", VStr (n_bl_label n));
              ("label", VStr (n_label n));
              ("inputs", VList inputs);
              ("outputs", VList outputs);
              ("properties", VList properties)],
       lines))%res.

(** What the [try] of lines 283-335 comes to for one class. *)
Definition catalog_entry (c : node_class) : result (value * list string) :=
  (n <- cls_new c ;; node_info c n)%res.

(** One turn of the loop of lines 280-335, on the mapping under
    [shader_nodes] and the host document. *)
Definition process_class (temp_mat : material) (c : node_class)
  (st : Dict.t * world) : Dict.t * world :=
  let (shader_nodes, w) := st in
  let w := Host.nodes_clear temp_mat w in
  match Host.nodes_new temp_mat c w with
  | (Raise e, w) => (shader_nodes, Host.print (class_failure_line c e) w)
  | (Ok n, w) =>
      match node_info c n with
      | Ok (info, lines) =>
          (Dict.set (cls_name c) info shader_nodes, Host.print_all lines w)
      | Raise e => (shader_nodes, Host.print (class_failure_line c e) w)
      end
  end.

Definition scan (temp_mat : material) (classes : list node_class)
  (st : Dict.t * world) : Dict.t * world :=
  fold_left (fun st c => process_class temp_mat c st) classes st.

Definition generate_master_shader_nodes_json (filepath : option string)
  (w : world) : result value * world :=
  let blender_version := String.concat "." (map str_of_nat (version w)) in
  let (temp_mat, w) := Host.materials_new "_temp_master_export" w in
  let w := Host.set_use_nodes temp_mat w in
  let candidates := shader_node_types w in
  let w :=
    Host.print
      ("Found " ++ str_of_nat (length candidates) ++ " shader node types") w in
  let (shader_nodes, w) := scan temp_mat (sorted_by_name candidates) ([], w) in
  let w := Host.materials_remove temp_mat w in
  let master_data :=
    VDict [("blender_version", VStr blender_version);
           ("shader_nodes", VDict shader_nodes)] in
  match truthy_path filepath with
  | Some path =>
      match Host.json_dump_to path master_data 4 w with
      | (Ok _, w) =>
          let w := Host.print ("Master shader nodes exported to " ++ path) w in
          let w :=
            Host.print
              ("Total nodes exported: " ++ str_of_nat (length shader_nodes)) w in
          (Ok master_data, w)
      | (Raise e, w) => (Raise e, w)
      end
  | None => (Ok master_data, w)
  end.

(** [doc[key]] on a document. *)
Definition doc_get (key : string) (doc : value) : option value :=
  match doc with
  | VDict d => Dict.get key d
  | _ => None
  end.

(** The node [n] with [props] for [bl_rna.properties]. *)
Definition with_properties (n : node) (props : list prop) : node :=
  {| n_name := n_name n; n_bl_idname := n_bl_idname n;
     n_bl_label := n_bl_label n; n_type := n_type n; n_label := n_label n;
     n_location := n_location n; n_width := n_width n;
     n_height := n_height n; n_hide := n_hide n; n_mute := n_mute n;
     n_inputs := n_inputs n; n_outputs := n_outputs n; n_bases := n_bases n;
     n_properties := props; n_attrs := n_attrs n;
     n_color_ramp := n_color_ramp n; n_mapping := n_mapping n;
     n_image := n_image n |}.

(** The tree [t] with [nodes] for its nodes. *)
Definition with_nodes (t : node_tree) (nodes : list node) : node_tree :=
  {| nt_nodes := nodes; nt_links := nt_links t |}.

(** ** A small host document

    A Math node wired to a colour ramp, inside a material called [Metal],
    and a registry of three classes, one of which cannot be instantiated. *)
Module Sample.

Definition plain_prop (identifier type : string) : prop :=
  {| p_identifier := identifier; p_name := identifier; p_type := type;
     p_description := ""; p_enum_items := Missing; p_array_length := Missing;
     p_hard_min := Missing; p_hard_max := Missing |}.

Definition operation : prop :=
  {| p_identifier := "operation"; p_name := "Operation"; p_type := "ENUM";
     p_description := ""; 
     p_enum_items :=
       Present [{| ei_identifier := "ADD" |}; {| ei_identifier := "MULTIPLY" |}];
     p_array_length := Missing; p_hard_min := Missing; p_hard_max := Missing |}.

(** An enum descriptor whose choices cannot be read. *)
Definition broken : prop :=
  {| p_identifier := "broken"; p_name := "Broken"; p_type := "ENUM";
     p_description := ""; p_enum_items := Failing (Exception "no items");
     p_array_length := Missing; p_hard_min := Missing; p_hard_max := Missing |}.

Definition node_base : base :=
  {| b_bl_rna := Some [plain_prop "rna_type" "POINTER";
                       plain_prop "name" "STRING";
                       plain_prop "label" "STRING"] |}.

Definition python_object : base := {| b_bl_rna := None |}.

Definition math_to_ramp : link :=
  {| from_node := {| nr_name := "Math" |};
     from_socket := {| sr_name := "Value"; sr_identifier := "Value" |};
     to_node := {| nr_name := "Ramp" |};
     to_socket := {| sr_name := "Fac"; sr_identifier := "Fac" |};
     is_valid := true; is_hidden := false |}.

Definition free_socket (name : string) (default_value : attr value) : socket :=
  {| s_name := name; s_identifier := name; s_type := "VALUE";
     s_default_value := default_value; s_enabled := true; s_hide := false;
     s_hide_value := false; s_is_linked := false; s_links := [] |}.

Definition linked_socket (name : string) (links : list link) : socket :=
  {| s_name := name; s_identifier := name; s_type := "VALUE";
     s_default_value := Present (VFloat 0.5%float); s_enabled := true;
     s_hide := false; s_hide_value := false; s_is_linked := true;
     s_links := links |}.

Definition math : node :=
  {| n_name := "Math"; n_bl_idname := "ShaderNodeMath"; n_bl_label := "Math";
     n_type := "MATH"; n_label := "";
     n_location := [VFloat 0%float; VFloat 0%float];
     n_width := VFloat 140%float; n_height := VFloat 100%float;
     n_hide := false; n_mute := false;
     n_inputs := [free_socket "Value" (Present (VFloat 0.5%float));
                  free_socket "Value_001" (Present (VFloat 0.5%float))];
     n_outputs := [linked_socket "Value" [math_to_ramp]];
     n_bases := [node_base; python_object];
     n_properties := [plain_prop "rna_type" "POINTER";
                      plain_prop "name" "STRING";
                      operation; broken;
                      plain_prop "use_clamp" "BOOLEAN";
                      plain_prop "dimensions" "FLOAT"];
     n_attrs := [("operation", Ok (VStr "ADD"));
                 ("use_clamp", Ok (VBool false));
                 ("name", Ok (VStr "Math"))];
     n_color_ramp := Missing; n_mapping := Missing; n_image := Missing |}.

Definition ramp : node :=
  {| n_name := "Ramp"; n_bl_idname := "ShaderNodeValToRGB";
     n_bl_label := "Color Ramp"; n_type := "VALTORGB"; n_label := "";
     n_location := [VFloat 200%float; VFloat 0%float];
     n_width := VFloat 240%float; n_height := VFloat 100%float;
     n_hide := false; n_mute := false;
     n_inputs := [linked_socket "Fac" [math_to_ramp]];
     n_outputs := [free_socket "Color"
                     (Present (VObj "bpy_prop_array" None true
                                 (Some [VFloat 0%float; VFloat 0%float;
                                        VFloat 0%float; VFloat 1%float])))];
     n_bases := [node_base];
     n_properties := [plain_prop "color_ramp" "POINTER"];
     n_attrs := [("color_ramp", Ok (VObj "ColorRamp" None false None))];
     n_color_ramp :=
       Present {| cr_color_mode := "RGB"; cr_hue_interpolation := "NEAR";
                  cr_interpolation := "LINEAR";
                  cr_elements :=
                    [{| re_position := VFloat 0%float;
                        re_color := [VFloat 0%float; VFloat 0%float;
                                     VFloat 0%float; VFloat 1%float];
                        re_alpha := VFloat 1%float |};
                     {| re_position := VFloat 1%float;
                        re_color := [VFloat 1%float; VFloat 1%float;
                                     VFloat 1%float; VFloat 1%float];
                        re_alpha := VFloat 1%float |}] |};
     n_mapping := Missing; n_image := Missing |}.

Definition metal : material :=
  {| mat_id := 1; mat_name := "Metal"; mat_use_nodes := true;
     mat_blend_method := "OPAQUE"; mat_use_backface_culling := false;
     mat_node_tree := {| nt_nodes := [math; ramp];
                         nt_links := [math_to_ramp] |} |}.

Definition flat : material :=
  {| mat_id := 2; mat_name := "Flat"; mat_use_nodes := false;
     mat_blend_method := "OPAQUE"; mat_use_backface_culling := false;
     mat_node_tree := {| nt_nodes := []; nt_links := [] |} |}.

Definition math_class : node_class :=
  {| cls_name := "ShaderNodeMath"; cls_is_node := true;
     cls_registered := true; cls_bases := [node_base; python_object];
     cls_new := Ok math |}.

Definition ramp_class : node_class :=
  {| cls_name := "ShaderNodeValToRGB"; cls_is_node := true;
     cls_registered := true; cls_bases := [node_base];
     cls_new := Ok ramp |}.

Definition group_class : node_class :=
  {| cls_name := "ShaderNodeCustomGroup"; cls_is_node := true;
     cls_registered := true; cls_bases := [node_base];
     cls_new := Raise (Exception "node type cannot be added") |}.

Definition host : world :=
  {| materials := [metal; flat]; console := []; files := [];
     unwritable := ["/proc/out.json"];
     types := [("Material", NotAClass);
               ("ShaderNodeValToRGB", AClass ramp_class);
               ("ShaderNodeMath", AClass math_class);
               ("ShaderNodeCustomGroup", AClass group_class)];
     version := [4; 2; 0] |}.

Definition math_document : value :=
  Eval vm_compute in
    match export_node_to_dict math with Ok doc => doc | Raise _ => VNone end.

Definition ramp_document : value :=
  Eval vm_compute in
    match export_node_to_dict ramp with Ok doc => doc | Raise _ => VNone end.

Definition math_entry : value * list string :=
  Eval vm_compute in
    match node_info math_class math with
    | Ok entry => entry
    | Raise _ => (VNone, [])
    end.

End Sample.

(** ** A host document with faults

    [Rough] holds a node with a socket over a collection of property groups;
    [Stale] holds a node with an output socket whose default raises when
    read. *)
Module Faulty.

Definition layers : value :=
  VObj "bpy_prop_collection" None true
    (Some [VObj "PropertyGroup" (Some "layer") false None]).

Definition plain_node (name : string) (inputs outputs : list socket) : node :=
  {| n_name := name; n_bl_idname := "ShaderNodeCustomGroup";
     n_bl_label := name; n_type := "CUSTOM"; n_label := "";
     n_location := [VFloat 0%float; VFloat 0%float];
     n_width := VFloat 140%float; n_height := VFloat 100%float;
     n_hide := false; n_mute := false;
     n_inputs := inputs; n_outputs := outputs; n_bases := [];
     n_properties := []; n_attrs := [];
     n_color_ramp := Missing; n_mapping := Missing; n_image := Missing |}.

Definition mix : node :=
  plain_node "Mix" [Sample.free_socket "Layers" (Present layers)] [].

Definition stale : node :=
  plain_node "Stale"
    [Sample.free_socket "Value" (Present (VFloat 0.5%float))]
    [Sample.free_socket "Result" (Failing (Exception "ReferenceError"))].

Definition material_of (id : nat) (name : string) (nodes : list node)
  : material :=
  {| mat_id := id; mat_name := name; mat_use_nodes := true;
     mat_blend_method := "OPAQUE"; mat_use_backface_culling := false;
     mat_node_tree := {| nt_nodes := nodes; nt_links := [] |} |}.

Definition stale_class : node_class :=
  {| cls_name := "ShaderNodeStale"; cls_is_node := true;
     cls_registered := true; cls_bases := []; cls_new := Ok stale |}.

Definition host : world :=
  {| materials := [material_of 1 "Rough" [mix];
                   material_of 2 "Stale" [Sample.math; stale];
                   Sample.flat];
     console := []; files := []; unwritable := [];
     types := [("ShaderNodeStale", AClass stale_class)];
     version := [4; 2; 0] |}.

End Faulty.

(** ** Batch drivers and the script

    [bpy.context] as the script reads it: the active object with its active
    material, and the selected objects with the material slots of their
    data ([Missing] when [obj.data] has no [materials]). *)
Record scene_object : Type := {
  obj_active_material : option material;
  obj_data_materials : attr (list (option material))
}.

Record context : Type := {
  active_object : option scene_object;
  selected_objects : list scene_object
}.

(** [len(doc[key])]. *)
Definition doc_len (key : string) (doc : value) : result nat :=
  match doc_get key doc with
  | Some (VList items) | Some (VTuple items) => Ok (length items)
  | Some (VDict items) => Ok (length items)
  | Some (VStr s) => Ok (String.length s)
  | Some _ => Raise (Exception "TypeError")
  | None => Raise (Exception "KeyError")
  end.

(** [materials.add(mat)] on a set of host objects, which are compared by
    identity. *)
Definition set_add (mat : material) (s : list material) : list material :=
  if existsb (fun m => Nat.eqb (mat_id m) (mat_id mat)) s then s
  else s ++ [mat].

(** Lines 389-391: the slots of one object. *)
Fixpoint add_slots (slots : list (option material)) (s : list material)
  : list material :=
  match slots with
  | [] => s
  | Some mat :: rest =>
      add_slots rest (if mat_use_nodes mat then set_add mat s else s)
  | None :: rest => add_slots rest s
  end.

(** Lines 386-391: the set of node-using materials of the selection. *)
Fixpoint selected_materials (objs : list scene_object) (s : list material)
  : result (list material) :=
  match objs with
  | [] => Ok s
  | obj :: rest =>
      (has <- Res.hasattr (obj_data_materials obj) ;;
       if has then
         slots <- Res.read (obj_data_materials obj) ;;
         selected_materials rest (add_slots slots s)
       else selected_materials rest s)%res
  end.

Section Drivers.

(** [os.makedirs(directory, exist_ok=True)] and [os.path.join], which
    belong to the platform. *)
Variable makedirs : string -> world -> result unit * world.
Variable path_join : string -> string -> string.

(** The order in which a [for] loop walks a set: not specified. *)
Variable set_order : list material -> list material.

(** Lines 372-376. *)
Fixpoint export_all_loop (directory : string) (mats : list material)
  (exported : nat) (w : world) : result nat * world :=
  match mats with
  | [] => (Ok exported, w)
  | mat :: rest =>
      if mat_use_nodes mat then
        let filepath := path_join directory (mat_name mat ++ ".json")%string in
        match export_material_nodes_to_json (mat_name mat) (Some filepath) w with
        | (Ok _, w) => export_all_loop directory rest (S exported) w
        | (Raise e, w) => (Raise e, w)
        end
      else export_all_loop directory rest exported w
  end.

Definition export_all_materials (directory : string) (w : world)
  : result unit * world :=
  match makedirs directory w with
  | (Raise e, w) => (Raise e, w)
  | (Ok _, w) =>
      match export_all_loop directory (materials w) 0 w with
      | (Ok exported, w) =>
          (Ok tt,
           Host.print
             ("Exported " ++ str_of_nat exported ++ " materials to "
              ++ directory) w)
      | (Raise e, w) => (Raise e, w)
      end
  end.

(** Lines 393-395. *)
Fixpoint export_each (directory : string) (mats : list material) (w : world)
  : result unit * world :=
  match mats with
  | [] => (Ok tt, w)
  | mat :: rest =>
      let filepath := path_join directory (mat_name mat ++ ".json")%string in
      match export_material_nodes_to_json (mat_name mat) (Some filepath) w with
      | (Ok _, w) => export_each directory rest w
      | (Raise e, w) => (Raise e, w)
      end
  end.

Definition export_selected_materials (ctx : context) (directory : string)
  (w : world) : result unit * world :=
  match makedirs directory w with
  | (Raise e, w) => (Raise e, w)
  | (Ok _, w) =>
      match selected_materials (selected_objects ctx) [] with
      | Raise e => (Raise e, w)
      | Ok mats =>
          match export_each directory (set_order mats) w with
          | (Ok _, w) =>
              (Ok tt,
               Host.print
                 ("Exported " ++ str_of_nat (length mats) ++ " materials to "
                  ++ directory) w)
          | (Raise e, w) => (Raise e, w)
          end
      end
  end.

End Drivers.

Definition newline : string := String (ascii_of_nat 10) EmptyString.

(** Lines 348-363: the block run when the file is the main script. *)
Definition main_block (ctx : context) (w : world) : result unit * world :=
  let after_material :=
    match active_object ctx with
    | Some obj =>
        match obj_active_material obj with
        | Some active =>
            match export_material_nodes_to_json (mat_name active)
                    (Some ("/tmp/" ++ mat_name active ++ "_nodes.json")%string) w with
            | (Ok (Some mat_data), w) =>
                match doc_len "nodes" mat_data, doc_len "links" mat_data with
                | Ok nodes, Ok links =>
                    (Ok tt,
                     Host.print
                       ("Exported " ++ str_of_nat nodes ++ " nodes and "
                        ++ str_of_nat links ++ " links") w)
                | Raise e, _ => (Raise e, w)
                | _, Raise e => (Raise e, w)
                end
            | (Ok None, w) =>
                (* mat_data['nodes'] with mat_data = None *)
                (Raise (Exception "TypeError"), w)
            | (Raise e, w) => (Raise e, w)
            end
        | None => (Ok tt, w)
        end
    | None => (Ok tt, w)
    end in
  match after_material with
  | (Raise e, w) => (Raise e, w)
  | (Ok _, w) =>
      match generate_master_shader_nodes_json
              (Some "/tmp/blender_shader_nodes_master.json") w with
      | (Raise e, w) => (Raise e, w)
      | (Ok master_data, w) =>
          let w := Host.print (newline ++ "Export Complete") w in
          match doc_len "shader_nodes" master_data with
          | Ok k =>
              (Ok tt,
               Host.print
                 ("Master file contains " ++ str_of_nat k
                  ++ " shader node types") w)
          | Raise e => (Raise e, w)
          end
      end
  end.

(** The file as a whole: the main block when it is run as a script, then
    line 400, which runs on every load. *)
Definition script (is_main : bool) (ctx : context) (w : world)
  : result unit * world :=
  let after_main := if is_main then main_block ctx w else (Ok tt, w) in
  match after_main with
  | (Raise e, w) => (Raise e, w)
  | (Ok _, w) =>
      match generate_master_shader_nodes_json
              (Some "C:/tmp/shader_nodes_master.json") w with
      | (Raise e, w) => (Raise e, w)
      | (Ok _, w) => (Ok tt, w)
      end
  end.

(** ** A platform and a scene for the drivers *)
Module Posix.

(** [posixpath.join] on two parts. *)
Definition join (a b : string) : string :=
  if String.prefix "/" b then b
  else if String.eqb a "" then b
  else if String.eqb (substring (String.length a - 1) 1 a) "/" then a ++ b
  else a ++ "/" ++ b.

(** A directory that is there or can be made. *)
Definition makedirs (directory : string) (w : world) : result unit * world :=
  (Ok tt, w).

(** A set walked in the order of insertion. *)
Definition set_order (mats : list material) : list material := mats.

Definition cube : scene_object :=
  {| obj_active_material := Some Sample.metal;
     obj_data_materials := Present [Some Sample.metal; None; Some Sample.flat] |}.

Definition sphere : scene_object :=
  {| obj_active_material := Some Sample.flat;
     obj_data_materials := Present [Some Sample.metal] |}.

Definition camera : scene_object :=
  {| obj_active_material := None; obj_data_materials := Missing |}.

Definition scene : context :=
  {| active_object := Some cube;
     selected_objects := [cube; camera; sphere] |}.

Definition flat_scene : context :=
  {| active_object := Some sphere; selected_objects := [sphere] |}.

End Posix.

(** ** Vocabulary of the statements *)

(** The host keeps [is_linked] and [links] in step: a socket reports itself
    linked exactly when it has a connection. *)
Definition links_agree (s : socket) : Prop :=
  s_is_linked s = true <-> s_links s <> [].

(** A sequence-like value that is not text and not one of the reference
    classes. *)
Definition sequence_like (classes : list string) (val : value) : bool :=
  has_len val && negb (is_str val) && negb (str_in (class_name val) classes).

(** How the specification words the placeholder of a reference. *)
Definition spec_placeholder (type_name : string) (name : option string)
  : string :=
  match name with
  | Some item_name => "<" ++ type_name ++ ": " ++ item_name ++ ">"
  | None => "<" ++ type_name ++ ">"
  end.

(** The output range of the normalizer as the specification lists it: null,
    a JSON primitive (a placeholder is a string), a list of JSON
    primitives. *)
Definition normalized (val : value) : bool :=
  match val with
  | VNone => true
  | VList items => forallb is_scalar items
  | other => is_scalar other
  end.

(** The host's materials are [ms] and, last, the scratch material. *)
Definition scratch_last (ms : list material) (temp_mat : material) (w : world)
  : Prop :=
  exists t, materials w = ms ++ [t] /\ mat_id t = mat_id temp_mat.

Definition name_le (a b : node_class) : Prop :=
  String.leb (cls_name a) (cls_name b) = true.

(** Strictly ascending, by code points. *)
Definition ascending (keys : list string) : Prop :=
  StronglySorted (fun a b => String.ltb a b = true) keys.

(** ** Observations on results, attributes and documents *)

(** The call raised. *)
Definition raises {A} (r : result A) : bool :=
  match r with Ok _ => false | Raise _ => true end.

(** Reading the attribute raises something other than [AttributeError]. *)
Definition attr_fails {A} (a : attr A) : bool :=
  match a with Failing _ => true | _ => false end.

(** The attribute is there and can be read. *)
Definition attr_present {A} (a : attr A) : bool :=
  match a with Present _ => true | _ => false end.

(** [key in doc]. *)
Definition doc_has (key : string) (doc : value) : bool :=
  match doc_get key doc with Some _ => true | None => false end.

(** What the host holds at [path]. *)
Fixpoint lookup_file (path : string) (fs : list (string * file)) : option file :=
  match fs with
  | [] => None
  | (p, f) :: rest => if String.eqb path p then Some f else lookup_file path rest
  end.

Definition file_at (path : string) (w : world) : option file :=
  lookup_file path (files w).

(** The extension block of lines 175-209 cannot be read: the attribute the
    node type calls for is missing or failing. *)
Definition type_specific_fails (n : node) : bool :=
  if String.eqb (n_type n) "VALTORGB" then negb (attr_present (n_color_ramp n))
  else if String.eqb (n_type n) "CURVE_RGB" then
    negb (attr_present (n_mapping n))
  else if String.eqb (n_type n) "TEX_IMAGE" then
    negb (attr_present (n_image n))
  else false.

(** The socket's [default_value] raises when read. *)
Definition socket_fails (s : socket) : bool := attr_fails (s_default_value s).

(** The mapping the scan builds, without the host: each class in turn
    files its entry under its name, or files nothing when it raises. *)
Definition catalog_entries (classes : list node_class) (d : Dict.t) : Dict.t :=
  fold_left
    (fun d c =>
       match catalog_entry c with
       | Ok (info, _) => Dict.set (cls_name c) info d
       | Raise _ => d
       end)
    classes d.

(** The document of the catalog for a host. *)
Definition catalog_document (w : world) : value :=
  VDict [("blender_version",
          VStr (String.concat "." (map str_of_nat (version w))));
         ("shader_nodes",
          VDict (catalog_entries (sorted_by_name (shader_node_types w)) []))].

(** The lines the scan prints, class by class: the lines of the property
    loop for a class that gets its entry, the failure line for one that
    raises. *)
Definition catalog_lines (classes : list node_class) : list string :=
  flat_map
    (fun c =>
       match catalog_entry c with
       | Ok (_, lines) => lines
       | Raise e => [class_failure_line c e]
       end)
    classes.

(** The line printed before the scan. *)
Definition found_line (w : world) : string :=
  "Found " ++ str_of_nat (length (shader_node_types w))
  ++ " shader node types".

(** The set built so far: distinct host objects, all using nodes. *)
Definition node_material_set (s : list material) : Prop :=
  NoDup (map mat_id s) /\ Forall (fun m => mat_use_nodes m = true) s.

(** * Properties *)

Section DictFacts.

Lemma get_set_same k v d : Dict.get k (Dict.set k v d) = Some v.
Proof.
  induction d as [|[k' v'] d IH]; simpl.
  - now rewrite String.eqb_refl.
  - destruct (String.eqb k k') eqn:E; simpl; rewrite E; auto.
Qed.

Lemma get_set_other k k' v d :
  k <> k' -> Dict.get k (Dict.set k' v d) = Dict.get k d.
Proof.
  intros Hne. induction d as [|[k2 v2] d IH]; simpl.
  - destruct (String.eqb k k') eqn:E; auto.
    apply String.eqb_eq in E. contradiction.
  - destruct (String.eqb k' k2) eqn:E; simpl.
    + apply String.eqb_eq in E. subst k2.
      destruct (String.eqb k k') eqn:E2; auto.
      apply String.eqb_eq in E2. contradiction.
    + destruct (String.eqb k k2); auto.
Qed.

Lemma keys_set k v d :
  Dict.keys (Dict.set k v d) =
  if str_in k (Dict.keys d) then Dict.keys d else Dict.keys d ++ [k].
Proof.
  unfold str_in. induction d as [|[k' v'] d IH]; simpl; auto.
  destruct (String.eqb k k') eqn:E; simpl; auto.
  unfold Dict.keys in *. rewrite IH.
  destruct (existsb (String.eqb k) (map fst d)); auto.
Qed.

Lemma str_in_iff s l : str_in s l = true <-> In s l.
Proof.
  unfold str_in. rewrite existsb_exists. split.
  - intros [x [Hx E]]. apply String.eqb_eq in E. now subst.
  - intros H. exists s. split; auto. apply String.eqb_refl.
Qed.

Lemma str_in_false s l : str_in s l = false <-> ~ In s l.
Proof.
  rewrite <- str_in_iff. destruct (str_in s l); split; congruence.
Qed.

Lemma in_keys_set k k' v d :
  In k (Dict.keys (Dict.set k' v d)) <-> k = k' \/ In k (Dict.keys d).
Proof.
  rewrite keys_set. destruct (str_in k' (Dict.keys d)) eqn:E.
  - apply str_in_iff in E. split; auto. intros [->|H]; auto.
  - rewrite in_app_iff. simpl. intuition.
Qed.

Lemma length_set_le k v d : length (Dict.set k v d) <= S (length d).
Proof.
  induction d as [|[k' v'] d IH]; simpl; auto.
  destruct (String.eqb k k'); simpl; lia.
Qed.

Lemma has_iff k d : Dict.has k d = true <-> In k (Dict.keys d).
Proof.
  unfold Dict.has. induction d as [|[k' v'] d IH]; simpl.
  - split; [discriminate | tauto].
  - destruct (String.eqb k k') eqn:E.
    + apply String.eqb_eq in E. subst. tauto.
    + apply String.eqb_neq in E. rewrite IH. split; auto.
      intros [H|H]; auto. congruence.
Qed.

End DictFacts.

Section PropertyFilter.

Variable n : node.

Lemma skip_property_false parents p :
  skip_property parents p = false ->
  ~ In (p_identifier p) parents /\ ~ In (p_identifier p) skipped_identifiers.
Proof.
  unfold skip_property. intros H. apply orb_false_elim in H.
  destruct H as [H1 H2]. split; now apply str_in_false.
Qed.

(** [get_property_info] files its document under the descriptor's own
    identifier. *)
Lemma get_property_info_identifier p info :
  get_property_info n p = Ok info ->
  doc_get "identifier" info = Some (VStr (p_identifier p)).
Proof.
  unfold get_property_info, set_if_present. intros H.
  destruct (String.eqb (p_type p) "ENUM");
    destruct (str_in (p_type p) ["FLOAT"; "INT"]);
    destruct (p_enum_items p); simpl in H; try discriminate;
    destruct (p_array_length p) as [| |len]; simpl in H; try discriminate;
    try destruct (len >? 0)%Z; simpl in H;
    destruct (p_hard_min p); simpl in H; try discriminate;
    destruct (p_hard_max p); simpl in H; try discriminate;
    inversion H; subst; reflexivity.
Qed.

Lemma node_properties_keys parents props acc k :
  In k (Dict.keys (node_properties n parents props acc)) ->
  In k (Dict.keys acc) \/
  exists p, In p props /\ p_identifier p = k /\ skip_property parents p = false.
Proof.
  revert acc. induction props as [|p rest IH]; simpl; intros acc H; auto.
  assert (Hrest : forall acc',
             In k (Dict.keys (node_properties n parents rest acc')) ->
             In k (Dict.keys acc') \/
             exists q, (p = q \/ In q rest) /\ p_identifier q = k /\
                       skip_property parents q = false).
  { intros acc' H'. destruct (IH _ H') as [?|[q [? ?]]]; eauto. }
  destruct (skip_property parents p) eqn:Hs; auto.
  destruct (get_property_info n p); auto.
  destruct (Hrest _ H) as [Hk|?]; auto.
  apply in_keys_set in Hk. destruct Hk as [->|Hk]; auto.
  right. exists p. auto.
Qed.

Lemma catalog_properties_sound c parents props info :
  In info (fst (catalog_properties c n parents props)) ->
  exists p, In p props /\ skip_property parents p = false /\
            get_property_info n p = Ok info.
Proof.
  induction props as [|p rest IH]; simpl; [tauto|].
  destruct (catalog_properties c n parents rest) as [infos lines].
  simpl in IH.
  assert (Hrest : In info infos ->
            exists q, (p = q \/ In q rest) /\ skip_property parents q = false /\
                      get_property_info n q = Ok info).
  { intros H'. destruct (IH H') as [q [? ?]]; eauto. }
  destruct (skip_property parents p) eqn:Hs; auto.
  destruct (get_property_info n p) eqn:Hg; simpl; auto.
  intros [<-|H]; eauto.
Qed.

End PropertyFilter.

Lemma type_specific_keeps n d d' k :
  type_specific n d = Ok d' ->
  k <> "color_ramp" -> k <> "curves" -> k <> "image" ->
  Dict.get k d' = Dict.get k d.
Proof.
  unfold type_specific. intros H H1 H2 H3.
  destruct (String.eqb (n_type n) "VALTORGB").
  { destruct (n_color_ramp n); simpl in H; try discriminate.
    inversion H. now apply get_set_other. }
  destruct (String.eqb (n_type n) "CURVE_RGB").
  { destruct (n_mapping n); simpl in H; try discriminate.
    inversion H. now apply get_set_other. }
  destruct (String.eqb (n_type n) "TEX_IMAGE").
  { destruct (n_image n) as [| |[i|]]; simpl in H; try discriminate;
      inversion H; auto. now apply get_set_other. }
  now inversion H.
Qed.

(** The node document carries the three collections the loops built. *)
Lemma export_node_to_dict_fields n doc :
  export_node_to_dict n = Ok doc ->
  exists inputs outputs,
    Res.mapM input_socket_data (n_inputs n) = Ok inputs /\
    Res.mapM output_socket_data (n_outputs n) = Ok outputs /\
    doc_get "inputs" doc = Some (VList inputs) /\
    doc_get "outputs" doc = Some (VList outputs) /\
    doc_get "properties" doc =
      Some (VDict (node_properties n (parent_props (n_bases n))
                     (n_properties n) [])).
Proof.
  unfold export_node_to_dict. intros H.
  destruct (Res.mapM input_socket_data (n_inputs n)) as [inputs|]; simpl in H;
    try discriminate.
  destruct (Res.mapM output_socket_data (n_outputs n)) as [outputs|];
    simpl in H; try discriminate.
  match type of H with
  | Res.bind (type_specific n ?d) _ = _ =>
      destruct (type_specific n d) as [d'|] eqn:Ht; simpl in H;
      try discriminate
  end.
  inversion H; subst doc. exists inputs, outputs.
  repeat split; simpl;
    rewrite (type_specific_keeps _ _ _ _ Ht) by discriminate; reflexivity.
Qed.

(** C1.  Neither path records a property whose identifier is declared on a
    base of the node's class, nor one named [rna_type], [dimensions] or
    [internal_links]: in the node document of the material path the keys of
    [properties], in the catalog entry the [identifier] of every document
    under [properties]. *)
Theorem properties_exclude_inherited_and_skipped (n : node) (c : node_class) :
  (forall doc, export_node_to_dict n = Ok doc ->
     exists properties,
       doc_get "properties" doc = Some (VDict properties) /\
       forall k, In k (Dict.keys properties) ->
         ~ In k (parent_props (n_bases n)) /\ ~ In k skipped_identifiers) /\
  (forall info lines, node_info c n = Ok (info, lines) ->
     exists properties,
       doc_get "properties" info = Some (VList properties) /\
       forall pd, In pd properties ->
         exists k, doc_get "identifier" pd = Some (VStr k) /\
           ~ In k (parent_props (cls_bases c)) /\ ~ In k skipped_identifiers).
Proof.
  split.
  - intros doc H.
    destruct (export_node_to_dict_fields _ _ H) as (i & o & _ & _ & _ & _ & Hp).
    eexists. split; [exact Hp|].
    intros k Hk. apply node_properties_keys in Hk.
    destruct Hk as [[]|[p [_ [<- Hs]]]]. now apply skip_property_false.
  - unfold node_info. intros info lines H.
    destruct (Res.mapM catalog_input_info (n_inputs n)) as [inputs|];
      simpl in H; try discriminate.
    destruct (catalog_properties c n (parent_props (cls_bases c))
                (n_properties n)) as [properties ls] eqn:Hc.
    inversion H; subst. exists properties. split; [reflexivity|].
    intros pd Hpd.
    assert (Hin : In pd (fst (catalog_properties c n
                     (parent_props (cls_bases c)) (n_properties n))))
      by now rewrite Hc.
    destruct (catalog_properties_sound _ _ _ _ _ Hin) as [p [_ [Hs Hg]]].
    exists (p_identifier p). split.
    + eapply get_property_info_identifier; eauto.
    + now apply skip_property_false.
Qed.

Lemma properties_exclude_inherited_and_skipped_witness :
  export_node_to_dict Sample.math = Ok Sample.math_document /\
  node_info Sample.math_class Sample.math = Ok Sample.math_entry /\
  (exists properties,
     doc_get "properties" Sample.math_document = Some (VDict properties) /\
     forall k, In k (Dict.keys properties) ->
       ~ In k (parent_props (n_bases Sample.math)) /\
       ~ In k skipped_identifiers) /\
  (exists properties,
     doc_get "properties" (fst Sample.math_entry) = Some (VList properties) /\
     forall pd, In pd properties ->
       exists k, doc_get "identifier" pd = Some (VStr k) /\
         ~ In k (parent_props (cls_bases Sample.math_class)) /\
         ~ In k skipped_identifiers).
Proof.
  destruct (properties_exclude_inherited_and_skipped
              Sample.math Sample.math_class) as [Hmat Hcat].
  split; [reflexivity|]. split; [reflexivity|]. split.
  - apply Hmat. reflexivity.
  - apply (Hcat (fst Sample.math_entry) (snd Sample.math_entry)). reflexivity.
Defined.

(** ** Socket connections *)

Lemma attach_links_unlinked ref s d :
  s_is_linked s = false -> attach_links ref s d = d.
Proof. unfold attach_links. now intros ->. Qed.

Lemma attach_links_linked ref s d :
  s_is_linked s = true ->
  Dict.get "links" (attach_links ref s d) = Some (VList (map ref (s_links s))).
Proof. unfold attach_links. intros ->. apply get_set_same. Qed.

Lemma mapM_nth_error {A B} (f : A -> result B) l l' i x :
  Res.mapM f l = Ok l' -> nth_error l i = Some x ->
  exists y, nth_error l' i = Some y /\ f x = Ok y.
Proof.
  revert l' i. induction l as [|a l IH]; intros l' i H Hn.
  - destruct i; discriminate.
  - simpl in H. destruct (f a) as [b|] eqn:Hf; simpl in H; try discriminate.
    destruct (Res.mapM f l) as [bs|]; simpl in H; try discriminate.
    inversion H; subst l'. destruct i; simpl in *.
    + inversion Hn; subst. eauto.
    + eauto.
Qed.

(** C2.  In the document [export_node_to_dict] returns, the entry of a
    socket without connections has no [links] key, and the entry of a socket
    with k >= 1 connections has [links] with exactly k entries, each naming
    the peer node's name and the peer socket's display name ([from_node],
    [from_socket] on an input; [to_node], [to_socket] on an output). *)
Theorem socket_links_present_iff_connected (n : node) (doc : value)
  (Hdoc : export_node_to_dict n = Ok doc) :
  exists inputs outputs,
    doc_get "inputs" doc = Some (VList inputs) /\
    doc_get "outputs" doc = Some (VList outputs) /\
    (forall i s, nth_error (n_inputs n) i = Some s -> links_agree s ->
       exists sd,
         nth_error inputs i = Some sd /\
         (s_links s = [] -> doc_get "links" sd = None) /\
         (forall k, 1 <= k -> length (s_links s) = k ->
            exists refs,
              doc_get "links" sd = Some (VList refs) /\ length refs = k /\
              refs =
                map (fun l =>
                       VDict [("from_node", VStr (nr_name (from_node l)));
                              ("from_socket", VStr (sr_name (from_socket l)))])
                    (s_links s))) /\
    (forall i s, nth_error (n_outputs n) i = Some s -> links_agree s ->
       exists sd,
         nth_error outputs i = Some sd /\
         (s_links s = [] -> doc_get "links" sd = None) /\
         (forall k, 1 <= k -> length (s_links s) = k ->
            exists refs,
              doc_get "links" sd = Some (VList refs) /\ length refs = k /\
              refs =
                map (fun l =>
                       VDict [("to_node", VStr (nr_name (to_node l)));
                              ("to_socket", VStr (sr_name (to_socket l)))])
                    (s_links s))).
Proof.
  destruct (export_node_to_dict_fields _ _ Hdoc)
    as (inputs & outputs & Hi & Ho & Hgi & Hgo & _).
  exists inputs, outputs. split; [exact Hgi|]. split; [exact Hgo|]. split.
  - intros i s Hn [Hl1 Hl2].
    destruct (mapM_nth_error _ _ _ _ _ Hi Hn) as [sd [Hsd Hs]].
    exists sd. split; [exact Hsd|].
    unfold input_socket_data in Hs.
    destruct (get_socket_default_value s) as [dv|]; simpl in Hs;
      try discriminate.
    inversion Hs; subst sd; clear Hs. split.
    + intros Hnil. destruct (s_is_linked s) eqn:E.
      * now destruct (Hl1 eq_refl).
      * simpl. now rewrite attach_links_unlinked.
    + intros k Hk Hlen. eexists. split; [|split; [|reflexivity]].
      * simpl. apply attach_links_linked. apply Hl2.
        intros Hnil. rewrite Hnil in Hlen. simpl in Hlen. lia.
      * now rewrite length_map.
  - intros i s Hn [Hl1 Hl2].
    destruct (mapM_nth_error _ _ _ _ _ Ho Hn) as [sd [Hsd Hs]].
    exists sd. split; [exact Hsd|].
    unfold output_socket_data in Hs.
    destruct (get_socket_default_value s) as [dv|]; simpl in Hs;
      try discriminate.
    inversion Hs; subst sd; clear Hs. split.
    + intros Hnil. destruct (s_is_linked s) eqn:E.
      * now destruct (Hl1 eq_refl).
      * simpl. now rewrite attach_links_unlinked.
    + intros k Hk Hlen. eexists. split; [|split; [|reflexivity]].
      * simpl. apply attach_links_linked. apply Hl2.
        intros Hnil. rewrite Hnil in Hlen. simpl in Hlen. lia.
      * now rewrite length_map.
Qed.

Lemma socket_links_present_iff_connected_witness :
  export_node_to_dict Sample.ramp = Ok Sample.ramp_document /\
  links_agree (Sample.linked_socket "Fac" [Sample.math_to_ramp]) /\
  exists sd refs,
    doc_get "links" sd = Some (VList refs) /\ length refs = 1 /\
    refs = [VDict [("from_node", VStr "Math"); ("from_socket", VStr "Value")]].
Proof.
  assert (Hagree : links_agree (Sample.linked_socket "Fac" [Sample.math_to_ramp])).
  { split; [discriminate | reflexivity]. }
  split; [reflexivity|]. split; [exact Hagree|].
  destruct (socket_links_present_iff_connected
              Sample.ramp Sample.ramp_document eq_refl)
    as (inputs & outputs & _ & _ & Hin & _).
  destruct (Hin 0 _ eq_refl Hagree) as (sd & _ & _ & Hk).
  destruct (Hk 1 (le_n 1) eq_refl) as (refs & Hget & Hlen & Hrefs).
  exists sd, refs. auto.
Defined.

(** ** Value Normalizer *)

(** The property path does what the sequence rule says: the list of the
    elements, or [None] when the conversion raises or an element is not
    JSON-safe. *)
Lemma normalize_property_value_sequence val :
  sequence_like property_reference_classes val = true ->
  normalize_property_value val =
  match py_list val with
  | Some items =>
      if forallb is_json_serializable items then VList items else VNone
  | None => VNone
  end.
Proof.
  unfold sequence_like, normalize_property_value. intros H.
  apply andb_true_iff in H. destruct H as [H Hc].
  apply negb_true_iff in Hc. rewrite Hc, H. reflexivity.
Qed.

(** The socket path returns the list as converted, whatever it holds. *)
Lemma normalize_socket_value_sequence val :
  sequence_like socket_reference_classes val = true ->
  normalize_socket_value val =
  match py_list val with
  | Some items => VList items
  | None => VNone
  end.
Proof.
  unfold sequence_like, normalize_socket_value. intros H.
  apply andb_true_iff in H. destruct H as [H Hc].
  apply negb_true_iff in Hc. rewrite Hc, H.
  destruct val; try reflexivity; discriminate.
Qed.

(** C3, at a socket whose default is a collection of property groups (a
    custom socket declared over a collection property).  The socket path
    hands the list on with the host objects inside, where the sequence rule
    and the property path give [None]; the material export then fails in
    [json.dump] and leaves a broken file. *)
Theorem socket_default_keeps_unsafe_element :
  let item := VObj "PropertyGroup" (Some "layer") false None in
  let val := VObj "bpy_prop_collection" None true (Some [item]) in
  let s := Sample.free_socket "Layers" (Present val) in
  let n :=
    {| n_name := "Mix"; n_bl_idname := "ShaderNodeCustomGroup";
       n_bl_label := "Mix"; n_type := "CUSTOM"; n_label := "";
       n_location := []; n_width := VFloat 140%float;
       n_height := VFloat 100%float; n_hide := false; n_mute := false;
       n_inputs := [s]; n_outputs := []; n_bases := []; n_properties := [];
       n_attrs := []; n_color_ramp := Missing; n_mapping := Missing;
       n_image := Missing |} in
  let m :=
    {| mat_id := 1; mat_name := "Rough"; mat_use_nodes := true;
       mat_blend_method := "OPAQUE"; mat_use_backface_culling := false;
       mat_node_tree := {| nt_nodes := [n]; nt_links := [] |} |} in
  let w :=
    {| materials := [m]; console := []; files := []; unwritable := [];
       types := []; version := [4; 2; 0] |} in
  sequence_like socket_reference_classes val = true /\
  forallb is_json_serializable [item] = false /\
  get_socket_default_value s = Ok (VList [item]) /\
  normalize_property_value val = VNone /\
  fst (export_material_nodes_to_json "Rough" (Some "/tmp/r.json") w) =
    Raise (Exception "TypeError") /\
  files (snd (export_material_nodes_to_json "Rough" (Some "/tmp/r.json") w)) =
    [("/tmp/r.json", Partial)].
Proof. cbv zeta. repeat split. Qed.

(** C4.  What each path writes for a reference: a socket default of one of
    the six classes of [socket_reference_classes] becomes
    [<TypeName: name>], with [unnamed] for a missing name; a property value
    of one of the eight classes of [property_reference_classes] becomes
    [<TypeName>], named or not.  Nothing else of the object is looked at. *)
Theorem reference_placeholders (cls : string) (name : option string)
  (len : bool) (iter : option (list value)) :
  (In cls socket_reference_classes ->
   normalize_socket_value (VObj cls name len iter) =
   VStr ("<" ++ cls ++ ": "
         ++ match name with Some n => n | None => "unnamed" end ++ ">")) /\
  (In cls property_reference_classes ->
   normalize_property_value (VObj cls name len iter) =
   VStr ("<" ++ cls ++ ">")).
Proof.
  split; intros H; apply str_in_iff in H.
  - unfold normalize_socket_value. simpl class_name. rewrite H.
    now destruct name.
  - unfold normalize_property_value. simpl class_name. now rewrite H.
Qed.

Lemma reference_placeholders_witness :
  normalize_socket_value (VObj "Image" (Some "wood.png") false None) =
    VStr "<Image: wood.png>" /\
  normalize_property_value (VObj "CurveMapping" None false None) =
    VStr "<CurveMapping>".
Proof.
  destruct (reference_placeholders "Image" (Some "wood.png") false None)
    as [Hs _].
  destruct (reference_placeholders "CurveMapping" None false None) as [_ Hp].
  split.
  - apply Hs. simpl. auto.
  - apply Hp. simpl. auto.
Defined.

(** C4 as worded fails on both paths: a nameless image on a socket is
    written [<Image: unnamed>], and a named image under a property loses its
    name. *)
Lemma reference_placeholder_not_as_specified :
  normalize_socket_value (VObj "Image" None false None) <>
    VStr (spec_placeholder "Image" None) /\
  normalize_property_value (VObj "Image" (Some "wood.png") false None) <>
    VStr (spec_placeholder "Image" (Some "wood.png")).
Proof. split; discriminate. Qed.

Lemma scalars_are_json_serializable items :
  forallb is_scalar items = true ->
  forallb is_json_serializable items = true.
Proof.
  induction items as [|v items IH]; simpl; auto.
  intros H. apply andb_true_iff in H. destruct H as [Hv H].
  rewrite (IH H). now destruct v.
Qed.

(** C9.  Both versions of the normalizer return a value of the output range
    unchanged. *)
Theorem normalizer_idempotent (val : value) :
  normalized val = true ->
  normalize_socket_value val = val /\ normalize_property_value val = val.
Proof.
  destruct val; simpl; intros H; try discriminate; auto.
  split; [reflexivity|].
  unfold normalize_property_value. simpl.
  now rewrite (scalars_are_json_serializable _ H).
Qed.

Lemma normalizer_idempotent_witness :
  normalized (VList [VFloat 0.5%float; VInt 2; VStr "<Image: wood.png>"]) = true /\
  normalize_socket_value (VList [VFloat 0.5%float; VInt 2; VStr "<Image: wood.png>"])
    = VList [VFloat 0.5%float; VInt 2; VStr "<Image: wood.png>"] /\
  normalize_property_value (VList [VFloat 0.5%float; VInt 2; VStr "<Image: wood.png>"])
    = VList [VFloat 0.5%float; VInt 2; VStr "<Image: wood.png>"].
Proof.
  split; [reflexivity|].
  apply (normalizer_idempotent
           (VList [VFloat 0.5%float; VInt 2; VStr "<Image: wood.png>"])).
  reflexivity.
Defined.

(** Beyond the listed range: a second pass never changes what a first pass
    returned, on either path. *)
Lemma normalize_socket_value_twice val :
  normalize_socket_value (normalize_socket_value val) =
  normalize_socket_value val.
Proof.
  destruct val as [| | | | | | | |cls name len iter]; try reflexivity.
  assert (Hobj : normalize_socket_value (VObj cls name len iter) =
                  if str_in cls socket_reference_classes
                  then VStr ("<" ++ cls ++ ": "
                             ++ getattr_name (VObj cls name len iter) "unnamed"
                             ++ ">")
                  else if len then
                    match iter with
                    | Some items => VList items
                    | None => VNone
                    end
                  else VNone).
  { unfold normalize_socket_value.
    cbn [class_name has_len is_str is_scalar py_list negb andb].
    destruct (str_in cls socket_reference_classes); [reflexivity|].
    now destruct len. }
  rewrite Hobj.
  destruct (str_in cls socket_reference_classes); [reflexivity|].
  destruct len; [|reflexivity]. now destruct iter.
Qed.

Lemma normalize_property_value_twice val :
  normalize_property_value (normalize_property_value val) =
  normalize_property_value val.
Proof.
  assert (Hlist : forall items,
            normalize_property_value
              (if forallb is_json_serializable items then VList items
               else VNone) =
            (if forallb is_json_serializable items then VList items
             else VNone)).
  { intros items. destruct (forallb is_json_serializable items) eqn:E;
      [|reflexivity].
    unfold normalize_property_value. simpl. now rewrite E. }
  destruct val as [| | | | |items|items|items|cls name len iter];
    try reflexivity.
  - apply Hlist.
  - apply Hlist.
  - apply (Hlist (map (fun kv => VStr (fst kv)) items)).
  - assert (Hobj : normalize_property_value (VObj cls name len iter) =
                    if str_in cls property_reference_classes
                    then VStr ("<" ++ cls ++ ">")
                    else if len then
                      match iter with
                      | Some items =>
                          if forallb is_json_serializable items
                          then VList items else VNone
                      | None => VNone
                      end
                    else VNone).
    { unfold normalize_property_value.
      cbn [class_name has_len is_str py_list negb andb is_json_serializable].
      destruct (str_in cls property_reference_classes); [reflexivity|].
      now destruct len. }
    rewrite Hobj.
    destruct (str_in cls property_reference_classes); [reflexivity|].
    destruct len; [|reflexivity].
    destruct iter as [items|]; [apply Hlist | reflexivity].
Qed.

(** ** Material Graph Exporter *)

(** C5.  When the host has no material of that name, or the material does
    not use nodes, the call prints one line saying so and returns [None];
    it does not raise. *)
Theorem export_material_rejects_quietly (material_name : string)
  (filepath : option string) (w : world) :
  (Host.materials_get material_name w = None ->
   export_material_nodes_to_json material_name filepath w =
   (Ok None, Host.print ("Material '" ++ material_name ++ "' not found") w)) /\
  (forall m, Host.materials_get material_name w = Some m ->
   mat_use_nodes m = false ->
   export_material_nodes_to_json material_name filepath w =
   (Ok None,
    Host.print ("Material '" ++ material_name ++ "' doesn't use nodes") w)).
Proof.
  unfold export_material_nodes_to_json. split.
  - now intros ->.
  - intros m -> ->. reflexivity.
Qed.

Lemma export_material_rejects_quietly_witness :
  Host.materials_get "Glass" Sample.host = None /\
  Host.materials_get "Flat" Sample.host = Some Sample.flat /\
  mat_use_nodes Sample.flat = false /\
  (let (r, w') :=
     export_material_nodes_to_json "Glass" (Some "/tmp/g.json") Sample.host in
   r = Ok None /\ console w' = ["Material 'Glass' not found"]) /\
  (let (r, w') :=
     export_material_nodes_to_json "Flat" (Some "/tmp/f.json") Sample.host in
   r = Ok None /\ console w' = ["Material 'Flat' doesn't use nodes"]).
Proof.
  destruct (export_material_rejects_quietly
              "Glass" (Some "/tmp/g.json") Sample.host) as [Hmissing _].
  destruct (export_material_rejects_quietly
              "Flat" (Some "/tmp/f.json") Sample.host) as [_ Hflat].
  split; [reflexivity|]. split; [reflexivity|]. split; [reflexivity|]. split.
  - rewrite (Hmissing eq_refl). split; reflexivity.
  - rewrite (Hflat Sample.flat eq_refl eq_refl). split; reflexivity.
Defined.

(** C10.  With an output path supplied, a call that fails validation
    returns [None] and leaves every file as it was: nothing is created,
    nothing written. *)
Theorem failed_validation_writes_no_file (material_name path : string)
  (w : world) :
  (Host.materials_get material_name w = None \/
   exists m, Host.materials_get material_name w = Some m /\
             mat_use_nodes m = false) ->
  fst (export_material_nodes_to_json material_name (Some path) w) = Ok None /\
  files (snd (export_material_nodes_to_json material_name (Some path) w)) =
    files w.
Proof.
  unfold export_material_nodes_to_json.
  intros [-> | [m [-> ->]]]; split; reflexivity.
Qed.

Lemma failed_validation_writes_no_file_witness :
  fst (export_material_nodes_to_json "Flat" (Some "/tmp/f.json") Sample.host)
    = Ok None /\
  files (snd (export_material_nodes_to_json "Flat" (Some "/tmp/f.json")
                Sample.host)) = [].
Proof.
  apply (failed_validation_writes_no_file "Flat" "/tmp/f.json" Sample.host).
  right. exists Sample.flat. split; reflexivity.
Defined.

(** ** One property that cannot be read *)

Lemma node_properties_app n parents l1 l2 acc :
  node_properties n parents (l1 ++ l2) acc =
  node_properties n parents l2 (node_properties n parents l1 acc).
Proof.
  revert acc. induction l1 as [|p l1 IH]; simpl; intros acc; auto.
  destruct (skip_property parents p); auto.
  destruct (get_property_info n p); auto.
Qed.

Lemma node_properties_skip_failing n parents l1 p l2 e :
  get_property_info n p = Raise e ->
  node_properties n parents (l1 ++ p :: l2) [] =
  node_properties n parents (l1 ++ l2) [].
Proof.
  intros H. rewrite !node_properties_app. simpl. rewrite H.
  now destruct (skip_property parents p).
Qed.

Lemma catalog_properties_app c n parents l1 l2 :
  catalog_properties c n parents (l1 ++ l2) =
  (fst (catalog_properties c n parents l1)
     ++ fst (catalog_properties c n parents l2),
   snd (catalog_properties c n parents l1)
     ++ snd (catalog_properties c n parents l2)).
Proof.
  induction l1 as [|p l1 IH]; simpl.
  - now destruct (catalog_properties c n parents l2).
  - rewrite IH. destruct (catalog_properties c n parents l1) as [i1 o1].
    destruct (catalog_properties c n parents l2) as [i2 o2]. simpl.
    destruct (skip_property parents p); auto.
    destruct (get_property_info n p); auto.
Qed.

Lemma catalog_properties_failing c n parents p l e :
  skip_property parents p = false ->
  get_property_info n p = Raise e ->
  catalog_properties c n parents (p :: l) =
  (fst (catalog_properties c n parents l),
   property_failure_line p c e :: snd (catalog_properties c n parents l)).
Proof.
  intros Hs Hg. simpl. rewrite Hs, Hg.
  now destruct (catalog_properties c n parents l).
Qed.

Lemma node_properties_with n props parents l acc :
  node_properties (with_properties n props) parents l acc =
  node_properties n parents l acc.
Proof. revert acc. induction l as [|p l IH]; simpl; intros; auto.
  change (get_property_info (with_properties n props) p)
    with (get_property_info n p).
  destruct (skip_property parents p); auto.
  destruct (get_property_info n p); auto.
Qed.

Lemma catalog_properties_with c n props parents l :
  catalog_properties c (with_properties n props) parents l =
  catalog_properties c n parents l.
Proof.
  induction l as [|p l IH]; simpl; auto.
  change (get_property_info (with_properties n props) p)
    with (get_property_info n p).
  now rewrite IH.
Qed.

Lemma export_node_to_dict_skip_failing n l1 p l2 e :
  n_properties n = l1 ++ p :: l2 ->
  get_property_info n p = Raise e ->
  export_node_to_dict n = export_node_to_dict (with_properties n (l1 ++ l2)).
Proof.
  intros Hp Hg. unfold export_node_to_dict.
  change (n_properties (with_properties n (l1 ++ l2))) with (l1 ++ l2).
  rewrite Hp, node_properties_with.
  rewrite (node_properties_skip_failing _ _ _ _ _ _ Hg).
  reflexivity.
Qed.

Lemma mapM_ext_in {A B} (f : A -> result B) l1 a b l2 :
  f a = f b -> Res.mapM f (l1 ++ a :: l2) = Res.mapM f (l1 ++ b :: l2).
Proof.
  intros H. induction l1 as [|x l1 IH]; simpl.
  - now rewrite H.
  - now rewrite IH.
Qed.

Lemma find_map_stable {A} (f : A -> bool) (g : A -> A) l :
  (forall x, f (g x) = f x) ->
  find f (map g l) = option_map g (find f l).
Proof.
  intros H. induction l as [|x l IH]; simpl; auto.
  rewrite H. destruct (f x); auto.
Qed.

(** A value that cannot be read is not such a failure: it is caught inside
    [get_property_info] and the property is kept, with [None] for value. *)
Lemma current_value_unreadable n p e :
  getattr_node n (p_identifier p) = Raise e -> current_value n p = VNone.
Proof. unfold current_value. now intros ->. Qed.

Lemma materials_get_update name m f w :
  (forall x, mat_name (f x) = mat_name x) ->
  Host.materials_get name w = Some m ->
  Host.materials_get name (Host.update_material m f w) = Some (f m).
Proof.
  intros Hname Hget. unfold Host.materials_get, Host.update_material in *.
  simpl. rewrite find_map_stable.
  - rewrite Hget. simpl. now rewrite Nat.eqb_refl.
  - intros x. destruct (Nat.eqb (mat_id x) (mat_id m)); auto.
    now rewrite Hname.
Qed.

(** C8.  Let [get_property_info] raise on one property [p] of a node, and
    let [n'] be the node without [p].  Material path: the node document is
    the one of [n'], and an export of a material holding the node gives the
    result, the console lines and the files it gives with [n'] in its place,
    so the failure leaves no trace.  Catalog path: the entry is the one of
    [n'] and the lines printed are those of [n'] with the line for [p]
    among them. *)
Theorem unreadable_property_is_omitted (n : node) (c : node_class)
  (before after : list prop) (p : prop) (e : exn)
  (Hprops : n_properties n = before ++ p :: after)
  (Hfail : get_property_info n p = Raise e) :
  let n' := with_properties n (before ++ after) in
  export_node_to_dict n = export_node_to_dict n' /\
  (forall material_name filepath w m nodes1 nodes2,
     Host.materials_get material_name w = Some m ->
     nt_nodes (mat_node_tree m) = nodes1 ++ n :: nodes2 ->
     let w' :=
       Host.update_material m
         (Host.set_tree (with_nodes (mat_node_tree m) (nodes1 ++ n' :: nodes2)))
         w in
     let out := export_material_nodes_to_json material_name filepath w in
     let out' := export_material_nodes_to_json material_name filepath w' in
     fst out = fst out' /\
     console (snd out) = console (snd out') /\
     files (snd out) = files (snd out')) /\
  (skip_property (parent_props (cls_bases c)) p = false ->
   (forall info lines, node_info c n' = Ok (info, lines) ->
      exists lines1 lines2,
        lines = lines1 ++ lines2 /\
        node_info c n =
          Ok (info, lines1 ++ property_failure_line p c e :: lines2)) /\
   (forall e', node_info c n' = Raise e' -> node_info c n = Raise e')).
Proof.
  intros n'.
  assert (Hnode : export_node_to_dict n = export_node_to_dict n')
    by (eapply export_node_to_dict_skip_failing; eauto).
  split; [exact Hnode|]. split.
  - intros material_name filepath w m nodes1 nodes2 Hget Hnodes w' out out'.
    subst out out'. unfold export_material_nodes_to_json.
    unfold w'.
    rewrite (materials_get_update material_name m
               (Host.set_tree
                  (with_nodes (mat_node_tree m) (nodes1 ++ n' :: nodes2)))
               w (fun x => eq_refl) Hget).
    rewrite Hget. simpl mat_use_nodes.
    destruct (mat_use_nodes m); simpl negb; cbv iota;
      [|repeat split].
    simpl mat_node_tree. simpl nt_nodes. rewrite Hnodes.
    rewrite (mapM_ext_in export_node_to_dict nodes1 n n' nodes2 Hnode).
    destruct (Res.mapM export_node_to_dict (nodes1 ++ n' :: nodes2));
      [|repeat split].
    simpl nt_links. simpl mat_blend_method. simpl mat_use_backface_culling.
    destruct (truthy_path filepath) as [path|]; [|repeat split].
    unfold Host.json_dump_to. simpl unwritable.
    destruct (str_in path (unwritable w)); [repeat split|].
    match goal with
    | |- context [is_json_serializable ?d] =>
        destruct (is_json_serializable d)
    end; repeat split.
  - intros Hskip. unfold node_info.
    change (n_inputs n') with (n_inputs n).
    change (n_outputs n') with (n_outputs n).
    change (n_bl_label n') with (n_bl_label n).
    change (n_label n') with (n_label n).
    change (n_properties n') with (before ++ after).
    rewrite Hprops. unfold n'. rewrite catalog_properties_with.
    rewrite !catalog_properties_app.
    rewrite (catalog_properties_failing _ _ _ _ _ _ Hskip Hfail).
    destruct (catalog_properties c n (parent_props (cls_bases c)) before)
      as [infos1 lines1].
    destruct (catalog_properties c n (parent_props (cls_bases c)) after)
      as [infos2 lines2].
    simpl fst; simpl snd.
    destruct (Res.mapM catalog_input_info (n_inputs n)) as [inputs|e0];
      simpl; split.
    + intros info lines H. inversion H; subst. eauto.
    + discriminate.
    + discriminate.
    + intros e' H. exact H.
Qed.

Lemma unreadable_property_is_omitted_witness :
  n_properties Sample.math =
    [Sample.plain_prop "rna_type" "POINTER"; Sample.plain_prop "name" "STRING";
     Sample.operation]
    ++ Sample.broken
    :: [Sample.plain_prop "use_clamp" "BOOLEAN";
        Sample.plain_prop "dimensions" "FLOAT"] /\
  get_property_info Sample.math Sample.broken = Raise (Exception "no items") /\
  export_node_to_dict Sample.math =
    export_node_to_dict
      (with_properties Sample.math
         [Sample.plain_prop "rna_type" "POINTER";
          Sample.plain_prop "name" "STRING"; Sample.operation;
          Sample.plain_prop "use_clamp" "BOOLEAN";
          Sample.plain_prop "dimensions" "FLOAT"]) /\
  exists info lines1 lines2,
    node_info Sample.math_class Sample.math =
      Ok (info,
          lines1
          ++ "Could not get property broken for ShaderNodeMath: no items"
          :: lines2).
Proof.
  destruct (unreadable_property_is_omitted Sample.math Sample.math_class
              [Sample.plain_prop "rna_type" "POINTER";
               Sample.plain_prop "name" "STRING"; Sample.operation]
              [Sample.plain_prop "use_clamp" "BOOLEAN";
               Sample.plain_prop "dimensions" "FLOAT"]
              Sample.broken (Exception "no items") eq_refl eq_refl)
    as [Hnode [_ Hcat]].
  split; [reflexivity|]. split; [reflexivity|]. split; [exact Hnode|].
  destruct (Hcat eq_refl) as [Hok _].
  destruct (Hok _ _ eq_refl) as (lines1 & lines2 & _ & Hinfo).
  eexists. exists lines1, lines2. exact Hinfo.
Defined.

(** ** Catalog Generator: the scratch material *)

Lemma scan_cons temp_mat c rest st :
  scan temp_mat (c :: rest) st = scan temp_mat rest (process_class temp_mat c st).
Proof. reflexivity. Qed.

Section Scratch.

Variable ms : list material.
Variable temp_mat : material.
Hypothesis temp_is_new : forall x, In x ms -> mat_id x <> mat_id temp_mat.

Lemma update_keeps_others f :
  map (fun m' => if Nat.eqb (mat_id m') (mat_id temp_mat) then f m' else m') ms
  = ms.
Proof.
  rewrite <- (map_id ms) at 2. apply map_ext_in. intros x Hx.
  destruct (Nat.eqb (mat_id x) (mat_id temp_mat)) eqn:E; auto.
  apply Nat.eqb_eq in E. now destruct (temp_is_new x Hx).
Qed.

Lemma update_material_scratch f w :
  (forall x, mat_id (f x) = mat_id x) ->
  scratch_last ms temp_mat w ->
  scratch_last ms temp_mat (Host.update_material temp_mat f w).
Proof.
  intros Hid [t [Hm Ht]]. unfold scratch_last, Host.update_material. simpl.
  rewrite Hm, map_app, update_keeps_others. simpl.
  rewrite Ht, Nat.eqb_refl. exists (f t). split; auto.
  now rewrite Hid.
Qed.

Lemma print_scratch line w :
  scratch_last ms temp_mat w -> scratch_last ms temp_mat (Host.print line w).
Proof. exact (fun H => H). Qed.

Lemma print_all_scratch lines w :
  scratch_last ms temp_mat w -> scratch_last ms temp_mat (Host.print_all lines w).
Proof. exact (fun H => H). Qed.

Lemma process_class_scratch c d w :
  scratch_last ms temp_mat w ->
  scratch_last ms temp_mat (snd (process_class temp_mat c (d, w))).
Proof.
  intros H. unfold process_class, Host.nodes_new.
  assert (Hc : scratch_last ms temp_mat (Host.nodes_clear temp_mat w))
    by (apply update_material_scratch; auto).
  destruct (cls_new c) as [n|e]; simpl.
  - assert (Hn : scratch_last ms temp_mat
                   (Host.update_material temp_mat
                      (fun m' =>
                         Host.set_tree
                           {| nt_nodes := nt_nodes (mat_node_tree m') ++ [n];
                              nt_links := nt_links (mat_node_tree m') |} m')
                      (Host.nodes_clear temp_mat w)))
      by (apply update_material_scratch; auto).
    destruct (node_info c n) as [[info lines]|e]; simpl; auto.
  - exact Hc.
Qed.

Lemma scan_scratch classes d w :
  scratch_last ms temp_mat w ->
  scratch_last ms temp_mat (snd (scan temp_mat classes (d, w))).
Proof.
  revert d w.
  induction classes as [|c rest IH]; intros d w H; [exact H|].
  rewrite scan_cons.
  pose proof (process_class_scratch c d w H) as Hc.
  destruct (process_class temp_mat c (d, w)) as [d1 w1].
  now apply IH.
Qed.

Lemma materials_remove_scratch w :
  scratch_last ms temp_mat w -> materials (Host.materials_remove temp_mat w) = ms.
Proof.
  intros [t [Hm Ht]]. unfold Host.materials_remove. simpl.
  rewrite Hm, filter_app. simpl. rewrite Ht, Nat.eqb_refl. simpl.
  rewrite app_nil_r. apply forallb_filter_id. apply forallb_forall.
  intros x Hx. apply negb_true_iff. apply Nat.eqb_neq. now apply temp_is_new.
Qed.

End Scratch.

Lemma fresh_id_above ms x : In x ms -> mat_id x < Host.fresh_id ms.
Proof.
  unfold Host.fresh_id. induction ms as [|m ms IH]; simpl; [tauto|].
  intros [->|H]; [lia|]. specialize (IH H). lia.
Qed.

Lemma json_dump_to_materials path doc indent w :
  materials (snd (Host.json_dump_to path doc indent w)) = materials w.
Proof.
  unfold Host.json_dump_to.
  destruct (str_in path (unwritable w)); auto.
  destruct (is_json_serializable doc); auto.
Qed.

(** C7.  Whatever the scan met, and whether or not the file could be
    written, the materials of the host after the call are the materials it
    had before: the scratch material is gone. *)
Theorem scratch_material_removed (filepath : option string) (w : world) :
  materials (snd (generate_master_shader_nodes_json filepath w)) = materials w.
Proof.
  unfold generate_master_shader_nodes_json, Host.materials_new.
  set (temp :=
         {| mat_id := Host.fresh_id (materials w);
            mat_name := "_temp_master_export"; mat_use_nodes := false;
            mat_blend_method := "OPAQUE"; mat_use_backface_culling := false;
            mat_node_tree := {| nt_nodes := []; nt_links := [] |} |}).
  assert (Hnew : forall x, In x (materials w) -> mat_id x <> mat_id temp).
  { intros x Hx. apply fresh_id_above in Hx. simpl. lia. }
  match goal with
  | |- context [scan temp ?l (?d, ?w0)] =>
      assert (Hs : scratch_last (materials w) temp (snd (scan temp l (d, w0))));
      [|destruct (scan temp l (d, w0)) as [shader_nodes w1]]
  end.
  { apply scan_scratch; auto. apply print_scratch.
    apply update_material_scratch; auto.
    exists temp. split; reflexivity. }
  simpl in Hs.
  pose proof (materials_remove_scratch (materials w) temp Hnew w1 Hs) as Hr.
  destruct (truthy_path filepath) as [path|]; [|exact Hr].
  match goal with
  | |- context [Host.json_dump_to ?p ?d ?i ?w0] =>
      pose proof (json_dump_to_materials p d i w0) as Hj;
      destruct (Host.json_dump_to p d i w0) as [[u|e] w2]
  end; simpl in *; congruence.
Qed.

(** ** Catalog Generator: the scan *)

Section StringOrder.

Lemma leb_trans a b c :
  String.leb a b = true -> String.leb b c = true -> String.leb a c = true.
Proof.
  unfold String.leb.
  destruct (String.compare a b) eqn:Eab; try discriminate;
    destruct (String.compare b c) eqn:Ebc; try discriminate; intros _ _.
  - apply String.compare_eq_iff in Eab. subst. now rewrite Ebc.
  - apply String.compare_eq_iff in Eab. subst. now rewrite Ebc.
  - apply String.compare_eq_iff in Ebc. subst. now rewrite Eab.
  - apply String_as_OT.cmp_lt in Eab. apply String_as_OT.cmp_lt in Ebc.
    pose proof (String_as_OT.lt_trans _ _ _ Eab Ebc) as H.
    apply String_as_OT.cmp_lt in H. unfold String_as_OT.cmp in H.
    now rewrite H.
Qed.

Lemma leb_false_flip a b : String.leb a b = false -> String.leb b a = true.
Proof.
  intros H. destruct (String.leb_total a b) as [H'|H']; congruence.
Qed.

Lemma leb_neq_ltb a b : String.leb a b = true -> a <> b -> String.ltb a b = true.
Proof.
  unfold String.leb, String.ltb.
  destruct (String.compare a b) eqn:E; try discriminate; auto.
  apply String.compare_eq_iff in E. contradiction.
Qed.

End StringOrder.

Section Sorting.

Lemma insert_by_name_perm c l : Permutation (insert_by_name c l) (c :: l).
Proof.
  induction l as [|d l IH]; simpl; auto.
  destruct (String.leb (cls_name c) (cls_name d)); auto.
  rewrite IH. apply perm_swap.
Qed.

Lemma sorted_by_name_perm l : Permutation (sorted_by_name l) l.
Proof.
  induction l as [|c l IH]; simpl; auto.
  rewrite insert_by_name_perm. now constructor.
Qed.

Lemma insert_by_name_sorted c l :
  StronglySorted name_le l -> StronglySorted name_le (insert_by_name c l).
Proof.
  induction 1 as [|d l Hs IH Hd]; simpl.
  - repeat constructor.
  - destruct (String.leb (cls_name c) (cls_name d)) eqn:E.
    + constructor; [now constructor|]. constructor; [exact E|].
      eapply Forall_impl; [|exact Hd]. intros x Hx.
      unfold name_le in *. eapply leb_trans; eauto.
    + constructor; [exact IH|].
      eapply Permutation_Forall.
      * symmetry. apply insert_by_name_perm.
      * constructor; [|exact Hd]. now apply leb_false_flip.
Qed.

Lemma sorted_by_name_sorted l : StronglySorted name_le (sorted_by_name l).
Proof.
  induction l as [|c l IH]; simpl; [constructor|].
  now apply insert_by_name_sorted.
Qed.

Lemma ascending_snoc keys k :
  ascending keys -> (forall x, In x keys -> String.ltb x k = true) ->
  ascending (keys ++ [k]).
Proof.
  unfold ascending. induction 1 as [|a l Hs IH Ha]; simpl; intros Hk.
  - repeat constructor.
  - constructor.
    + apply IH. intros x Hx. apply Hk. now right.
    + apply Forall_app. split; [exact Ha|]. constructor; [|constructor].
      apply Hk. now left.
Qed.

End Sorting.

Lemma in_set_inv k v k' v' d :
  In (k', v') (Dict.set k v d) -> (k' = k /\ v' = v) \/ In (k', v') d.
Proof.
  induction d as [|[k2 v2] d IH]; simpl.
  - intros [H|[]]. inversion H. auto.
  - destruct (String.eqb k k2) eqn:E; simpl.
    + apply String.eqb_eq in E. subst k2.
      intros [H|H]; [inversion H; auto | auto].
    + intros [H|H]; auto. destruct (IH H); auto.
Qed.

(** One turn of the loop: an entry filed under the class name and the
    property lines printed, or nothing filed and the failure printed. *)
Lemma process_class_spec temp_mat c d w :
  match catalog_entry c with
  | Ok (info, lines) =>
      fst (process_class temp_mat c (d, w)) = Dict.set (cls_name c) info d /\
      console (snd (process_class temp_mat c (d, w))) = console w ++ lines
  | Raise e =>
      fst (process_class temp_mat c (d, w)) = d /\
      console (snd (process_class temp_mat c (d, w))) =
        console w ++ [class_failure_line c e]
  end.
Proof.
  unfold catalog_entry, process_class, Host.nodes_new.
  destruct (cls_new c) as [n|e]; simpl; auto.
  destruct (node_info c n) as [[info lines]|e]; simpl; auto.
Qed.

(** What the scan of a sorted list of classes leaves behind. *)
Lemma scan_spec_from temp_mat classes :
  StronglySorted name_le classes ->
  forall d w,
  ascending (Dict.keys d) ->
  (forall k c, In k (Dict.keys d) -> In c classes ->
     String.leb k (cls_name c) = true) ->
  let d' := fst (scan temp_mat classes (d, w)) in
  let w' := snd (scan temp_mat classes (d, w)) in
  ascending (Dict.keys d') /\
  length d' <= length d + length classes /\
  (forall k v, In (k, v) d' ->
     In (k, v) d \/
     exists c lines,
       In c classes /\ cls_name c = k /\ catalog_entry c = Ok (v, lines)) /\
  (forall k, In k (Dict.keys d) -> In k (Dict.keys d')) /\
  (forall c info lines, In c classes -> catalog_entry c = Ok (info, lines) ->
     In (cls_name c) (Dict.keys d')) /\
  exists out,
    console w' = console w ++ out /\
    forall c e, In c classes -> catalog_entry c = Raise e ->
      In (class_failure_line c e) out.
Proof.
  induction 1 as [|c rest Hs IH Hc]; intros d w Hasc Hle d' w'.
  - subst d' w'. simpl. repeat split; auto; try lia; try tauto.
    exists []. split; [now rewrite app_nil_r | intros ? ? []].
  - subst d' w'. rewrite scan_cons.
    pose proof (process_class_spec temp_mat c d w) as Hp.
    destruct (process_class temp_mat c (d, w)) as [d1 w1]. simpl in Hp.
    assert (Hd1 : (d1 = d /\ exists e, catalog_entry c = Raise e) \/
                  exists info lines, catalog_entry c = Ok (info, lines) /\
                                     d1 = Dict.set (cls_name c) info d).
    { destruct (catalog_entry c) as [[info lines]|e]; destruct Hp; eauto. }
    assert (Hkeys : forall k, In k (Dict.keys d1) ->
                      k = cls_name c \/ In k (Dict.keys d)).
    { intros k Hk. destruct Hd1 as [[-> _]|(info & lines & _ & ->)]; auto.
      now apply in_keys_set in Hk. }
    assert (Hasc1 : ascending (Dict.keys d1)).
    { destruct Hd1 as [[-> _]|(info & lines & _ & ->)]; auto.
      rewrite keys_set. destruct (str_in (cls_name c) (Dict.keys d)) eqn:E; auto.
      apply ascending_snoc; auto. intros x Hx. apply leb_neq_ltb.
      - apply Hle; simpl; auto.
      - intros ->. apply str_in_false in E. contradiction. }
    assert (Hle1 : forall k c', In k (Dict.keys d1) -> In c' rest ->
                     String.leb k (cls_name c') = true).
    { intros k c' Hk Hc'. destruct (Hkeys k Hk) as [->|Hk'].
      - rewrite Forall_forall in Hc. now apply Hc.
      - apply Hle; simpl; auto. }
    destruct (IH d1 w1 Hasc1 Hle1)
      as (Ha & Hlen & Hfrom & Hkeep & Hhas & out & Hout & Hlog).
    split; [exact Ha|]. split.
    { assert (length d1 <= S (length d)).
      { destruct Hd1 as [[-> _]|(info & lines & _ & ->)];
          [lia | apply length_set_le]. }
      simpl. lia. }
    split.
    { intros k v Hkv. destruct (Hfrom k v Hkv) as [H1|(c' & ls & ? & ? & ?)].
      - destruct Hd1 as [[-> _]|(info & lines & Hok & ->)]; auto.
        apply in_set_inv in H1. destruct H1 as [[-> ->]|H1]; auto.
        right. exists c, lines. simpl. auto.
      - right. exists c', ls. simpl. auto. }
    assert (Hkeep1 : forall k, In k (Dict.keys d) -> In k (Dict.keys d1)).
    { intros k Hk. destruct Hd1 as [[-> _]|(info & lines & _ & ->)]; auto.
      apply in_keys_set. auto. }
    split; [auto|]. split.
    { intros c' info lines [<-|Hin] Hok; [|eauto].
      apply Hkeep. destruct Hd1 as [[_ [e He]]|(i & l & _ & ->)].
      - congruence.
      - apply in_keys_set. auto. }
    destruct (catalog_entry c) as [[info lines]|e] eqn:Hce;
      destruct Hp as [_ Hcon].
    + exists (lines ++ out). split.
      * now rewrite Hout, Hcon, app_assoc.
      * intros c' e [<-|Hin] He; [congruence|].
        apply in_or_app. right. eauto.
    + exists (class_failure_line c e :: out). split.
      * rewrite Hout, Hcon, <- app_assoc. reflexivity.
      * intros c' e' [<-|Hin] He; [left; congruence|]. right. eauto.
Qed.

Lemma json_dump_to_console path doc indent w :
  console (snd (Host.json_dump_to path doc indent w)) = console w.
Proof.
  unfold Host.json_dump_to.
  destruct (str_in path (unwritable w)); auto.
  destruct (is_json_serializable doc); auto.
Qed.

(** The scan from an empty catalog. *)
Lemma scan_spec temp_mat classes st :
  StronglySorted name_le classes ->
  fst st = [] ->
  let d' := fst (scan temp_mat classes st) in
  let w' := snd (scan temp_mat classes st) in
  ascending (Dict.keys d') /\
  length d' <= length classes /\
  (forall k v, In (k, v) d' ->
     exists c lines,
       In c classes /\ cls_name c = k /\ catalog_entry c = Ok (v, lines)) /\
  (forall c info lines, In c classes -> catalog_entry c = Ok (info, lines) ->
     In (cls_name c) (Dict.keys d')) /\
  exists out,
    console w' = console (snd st) ++ out /\
    forall c e, In c classes -> catalog_entry c = Raise e ->
      In (class_failure_line c e) out.
Proof.
  destruct st as [d w]. simpl. intros Hs ->.
  destruct (scan_spec_from temp_mat classes Hs [] w)
    as (Ha & Hlen & Hfrom & _ & Hhas & Hout); [constructor | intros k c [] |].
  repeat split; auto.
  intros k v Hkv. destruct (Hfrom k v Hkv) as [[]|H]. exact H.
Qed.

(** C6.  Over the N candidate classes the catalog has at most N entries,
    its keys stand in strictly ascending order of class name, and a
    candidate whose instantiation or serialization raises is logged and
    leaves no entry, while every candidate that can be serialized has its
    entry, whatever happened to the others.  The catalog is what the call
    returns; only the writing of the file can make the call raise. *)
Theorem catalog_scan_sorted_and_tolerant (filepath : option string)
  (w : world) :
  let candidates := shader_node_types w in
  let out := generate_master_shader_nodes_json filepath w in
  exists shader_nodes,
    (forall doc, fst out = Ok doc ->
       doc_get "shader_nodes" doc = Some (VDict shader_nodes)) /\
    (truthy_path filepath = None -> exists doc, fst out = Ok doc) /\
    length shader_nodes <= length candidates /\
    ascending (Dict.keys shader_nodes) /\
    (forall c e, In c candidates -> catalog_entry c = Raise e ->
       In (class_failure_line c e) (console (snd out))) /\
    (forall c info lines, In c candidates ->
       catalog_entry c = Ok (info, lines) ->
       Dict.has (cls_name c) shader_nodes = true) /\
    (forall k v, In (k, v) shader_nodes ->
       exists c lines,
         In c candidates /\ cls_name c = k /\ catalog_entry c = Ok (v, lines)).
Proof.
  intros candidates out. subst out.
  unfold generate_master_shader_nodes_json, Host.materials_new.
  match goal with
  | |- context [shader_node_types ?x] =>
      change (shader_node_types x) with candidates
  end.
  match goal with
  | |- context [scan ?t ?l ?st] =>
      pose proof (scan_spec t l st (sorted_by_name_sorted candidates) eq_refl)
        as Hscan;
      revert Hscan; destruct (scan t l st) as [shader_nodes w1];
      intros Hscan
  end.
  cbn [fst snd] in Hscan.
  destruct Hscan as (Hasc & Hlen & Hfrom & Hhas & lines & Hcon & Hlog).
  pose proof (sorted_by_name_perm candidates) as Hperm.
  assert (Hin : forall c, In c candidates -> In c (sorted_by_name candidates)).
  { intros c Hc. eapply Permutation_in; [symmetry; exact Hperm | exact Hc]. }
  assert (Hin' : forall c, In c (sorted_by_name candidates) -> In c candidates).
  { intros c Hc. eapply Permutation_in; [exact Hperm | exact Hc]. }
  exists shader_nodes.
  assert (Hrest :
    length shader_nodes <= length candidates /\
    ascending (Dict.keys shader_nodes) /\
    (forall c info ls, In c candidates -> catalog_entry c = Ok (info, ls) ->
       Dict.has (cls_name c) shader_nodes = true) /\
    (forall k v, In (k, v) shader_nodes ->
       exists c ls,
         In c candidates /\ cls_name c = k /\ catalog_entry c = Ok (v, ls))).
  { split; [rewrite <- (Permutation_length Hperm); exact Hlen|].
    split; [exact Hasc|]. split.
    - intros c info ls Hc Hok. apply has_iff. eauto.
    - intros k v Hkv. destruct (Hfrom k v Hkv) as (c & ls & ? & ? & ?).
      exists c, ls. auto. }
  assert (Hlogged : forall c e, In c candidates -> catalog_entry c = Raise e ->
                      In (class_failure_line c e) (console w1)).
  { intros c e Hc He. rewrite Hcon. apply in_or_app. right. eauto. }
  destruct (truthy_path filepath) as [path|].
  - match goal with
    | |- context [Host.json_dump_to ?p ?d ?i ?w0] =>
        pose proof (json_dump_to_console p d i w0) as Hj;
        destruct (Host.json_dump_to p d i w0) as [[u|e] w2]
    end; simpl in Hj |- *.
    + split; [intros doc H; inversion H; reflexivity|].
      split; [discriminate|].
      destruct Hrest as (? & ? & ? & ?). repeat split; auto.
      intros c e Hc He. rewrite Hj. apply in_or_app. left.
      apply in_or_app. left. auto.
    + split; [discriminate|]. split; [discriminate|].
      destruct Hrest as (? & ? & ? & ?). repeat split; auto.
      intros c e' Hc He. rewrite Hj. auto.
  - simpl. split; [intros doc H; inversion H; reflexivity|].
    split; [eauto|].
    destruct Hrest as (? & ? & ? & ?). repeat split; auto.
Qed.

Lemma catalog_scan_sorted_and_tolerant_witness :
  In Sample.group_class (shader_node_types Sample.host) /\
  In Sample.math_class (shader_node_types Sample.host) /\
  catalog_entry Sample.group_class =
    Raise (Exception "node type cannot be added") /\
  catalog_entry Sample.math_class = Ok Sample.math_entry /\
  exists shader_nodes,
    doc_get "shader_nodes"
      (match fst (generate_master_shader_nodes_json None Sample.host) with
       | Ok doc => doc
       | Raise _ => VNone
       end) = Some (VDict shader_nodes) /\
    Dict.has "ShaderNodeMath" shader_nodes = true /\
    In "Could not process ShaderNodeCustomGroup: node type cannot be added"
       (console (snd (generate_master_shader_nodes_json None Sample.host))).
Proof.
  assert (Hgroup : In Sample.group_class (shader_node_types Sample.host))
    by (simpl; auto).
  assert (Hmath : In Sample.math_class (shader_node_types Sample.host))
    by (simpl; auto).
  split; [exact Hgroup|]. split; [exact Hmath|].
  split; [reflexivity|]. split; [reflexivity|].
  destruct (catalog_scan_sorted_and_tolerant None Sample.host)
    as (shader_nodes & Hdoc & _ & _ & _ & Hlog & Hhas & _).
  exists shader_nodes. split; [|split].
  - apply Hdoc. reflexivity.
  - exact (Hhas Sample.math_class _ _ Hmath eq_refl).
  - exact (Hlog Sample.group_class _ Hgroup eq_refl).
Defined.

(** * Further properties of the serializers *)

(** ** Value Normalizer and Property Introspector *)

(** X1.  Whatever it is given, the property path of the normalizer returns
    a value [is_json_serializable] accepts. *)
Theorem normalize_property_value_json_safe (val : value) :
  is_json_serializable (normalize_property_value val) = true.
Proof.
  unfold normalize_property_value.
  destruct (str_in (class_name val) property_reference_classes);
    [reflexivity|].
  destruct (has_len val && negb (is_str val)).
  - destruct (py_list val) as [items|]; [|reflexivity].
    destruct (is_json_serializable (VList items)) eqn:E; auto.
  - destruct (is_json_serializable val) eqn:E; auto.
Qed.

Lemma current_value_json_safe n p :
  is_json_serializable (current_value n p) = true.
Proof.
  unfold current_value. destruct (getattr_node n (p_identifier p)); auto.
  apply normalize_property_value_json_safe.
Qed.

Ltac property_cases p H :=
  unfold get_property_info, set_if_present in H;
  destruct (String.eqb (p_type p) "ENUM");
  destruct (str_in (p_type p) ["FLOAT"; "INT"]);
  destruct (p_enum_items p); simpl in H; try discriminate;
  destruct (p_array_length p) as [| |len]; simpl in H; try discriminate;
  try destruct (len >? 0)%Z; simpl in H;
  destruct (p_hard_min p); simpl in H; try discriminate;
  destruct (p_hard_max p); simpl in H; try discriminate;
  inversion H; subst; clear H.

(** X2.  A property document always carries [current_value], and the value
    under it is JSON-safe: a value that cannot be read or represented is
    recorded as [None]. *)
Theorem property_document_current_value (n : node) (p : prop) (info : value) :
  get_property_info n p = Ok info ->
  doc_get "current_value" info = Some (current_value n p) /\
  is_json_serializable (current_value n p) = true /\
  (forall e, getattr_node n (p_identifier p) = Raise e ->
     doc_get "current_value" info = Some VNone).
Proof.
  intros H.
  assert (Hget : doc_get "current_value" info = Some (current_value n p))
    by (property_cases p H; reflexivity).
  split; [exact Hget|]. split; [apply current_value_json_safe|].
  intros e He. rewrite Hget. unfold current_value. now rewrite He.
Qed.

Lemma property_document_current_value_witness :
  get_property_info Sample.math Sample.operation =
    Ok (VDict [("identifier", VStr "operation"); ("name", VStr "Operation");
               ("type", VStr "ENUM"); ("description", VStr "");
               ("current_value", VStr "ADD");
               ("enum_items", VList [VStr "ADD"; VStr "MULTIPLY"])]) /\
  is_json_serializable (current_value Sample.math Sample.operation) = true.
Proof.
  split; [reflexivity|].
  exact (proj1 (proj2 (property_document_current_value
                         Sample.math Sample.operation _ eq_refl))).
Defined.

Lemma keys_as_strings_json_safe (items : list (string * value)) :
  forallb is_json_serializable (map (fun kv => VStr (fst kv)) items) = true.
Proof. induction items as [|kv items IH]; simpl; auto. Qed.

(** X3.  The socket path returns a value that is not JSON-safe in one case
    only: the default is a sequence (not text, not a reference) whose
    conversion to a list succeeds and holds an element that is not
    JSON-safe. *)
Theorem socket_value_unsafe_iff (val : value) :
  is_json_serializable (normalize_socket_value val) = false <->
  exists items,
    sequence_like socket_reference_classes val = true /\
    py_list val = Some items /\
    forallb is_json_serializable items = false.
Proof.
  destruct val as [| | | | |items|items|items|cls name len iter];
    try (split; [discriminate | intros (items & H & _); discriminate]).
  - split; [intros H; exists items; auto|].
    intros (l & _ & Hl & H). inversion Hl; subst. exact H.
  - split; [intros H; exists items; auto|].
    intros (l & _ & Hl & H). inversion Hl; subst. exact H.
  - split.
    + simpl. rewrite keys_as_strings_json_safe. discriminate.
    + intros (l & _ & Hl & H). inversion Hl; subst.
      rewrite keys_as_strings_json_safe in H. discriminate.
  - unfold sequence_like, normalize_socket_value.
    cbn [class_name has_len is_str is_scalar py_list negb andb].
    destruct (str_in cls socket_reference_classes); simpl.
    + split; [discriminate|]. intros (l & H & _).
      rewrite andb_false_r in H. discriminate.
    + destruct len; simpl.
      * destruct iter as [l|]; simpl.
        -- split; [intros H; exists l; auto|].
           intros (l' & _ & Hl & H). inversion Hl; subst. exact H.
        -- split; [discriminate|]. intros (l' & _ & Hl & _). discriminate.
      * split; [discriminate|]. intros (l' & H & _). discriminate.
Qed.

(** X4.  [get_property_info] raises in two situations only: the type is
    [ENUM] and [enum_items] cannot be read, or the type is [FLOAT] or [INT]
    and reading [array_length], [hard_min] or [hard_max] raises something
    other than [AttributeError].  The node and the value of the property
    play no part. *)
Theorem get_property_info_raises (n : node) (p : prop) :
  raises (get_property_info n p) =
  (String.eqb (p_type p) "ENUM" && negb (attr_present (p_enum_items p)))
  || (str_in (p_type p) ["FLOAT"; "INT"]
      && (attr_fails (p_array_length p) || attr_fails (p_hard_min p)
          || attr_fails (p_hard_max p))).
Proof.
  unfold get_property_info, set_if_present.
  destruct (String.eqb (p_type p) "ENUM");
    destruct (str_in (p_type p) ["FLOAT"; "INT"]);
    destruct (p_enum_items p); simpl; try reflexivity;
    destruct (p_array_length p) as [| |len]; simpl; try reflexivity;
    try destruct (len >? 0)%Z; simpl;
    destruct (p_hard_min p); simpl; try reflexivity;
    destruct (p_hard_max p); reflexivity.
Qed.

(** X5.  In a property document [enum_items] is there exactly for an
    [ENUM]; [array_length], [min] and [max] are there exactly for a [FLOAT]
    or [INT] whose descriptor has a positive array length, a [hard_min], a
    [hard_max]. *)
Theorem property_document_optional_keys (n : node) (p : prop) (info : value) :
  get_property_info n p = Ok info ->
  doc_has "enum_items" info = String.eqb (p_type p) "ENUM" /\
  doc_has "array_length" info =
    (str_in (p_type p) ["FLOAT"; "INT"]
     && match p_array_length p with
        | Present len => (len >? 0)%Z
        | _ => false
        end) /\
  doc_has "min" info =
    (str_in (p_type p) ["FLOAT"; "INT"] && attr_present (p_hard_min p)) /\
  doc_has "max" info =
    (str_in (p_type p) ["FLOAT"; "INT"] && attr_present (p_hard_max p)).
Proof.
  intros H. property_cases p H; repeat split.
Qed.

Lemma property_document_optional_keys_witness :
  doc_has "enum_items"
    (VDict [("identifier", VStr "operation"); ("name", VStr "Operation");
            ("type", VStr "ENUM"); ("description", VStr "");
            ("current_value", VStr "ADD");
            ("enum_items", VList [VStr "ADD"; VStr "MULTIPLY"])]) = true.
Proof.
  exact (proj1 (property_document_optional_keys
                  Sample.math Sample.operation _ eq_refl)).
Defined.

(** ** Node Serializer *)

Lemma raises_mapM {A B} (f : A -> result B) l :
  raises (Res.mapM f l) = existsb (fun x => raises (f x)) l.
Proof.
  induction l as [|x l IH]; simpl; auto.
  destruct (f x); simpl; auto.
  rewrite <- IH. now destruct (Res.mapM f l).
Qed.

Lemma existsb_pointwise {A} (f g : A -> bool) l :
  (forall x, f x = g x) -> existsb f l = existsb g l.
Proof.
  intros H. induction l as [|x l IH]; simpl; auto. now rewrite H, IH.
Qed.

Lemma length_mapM {A B} (f : A -> result B) l l' :
  Res.mapM f l = Ok l' -> length l' = length l.
Proof.
  revert l'. induction l as [|x l IH]; simpl; intros l' H.
  - now inversion H.
  - destruct (f x); simpl in H; try discriminate.
    destruct (Res.mapM f l) as [ys|]; simpl in H; try discriminate.
    inversion H. simpl. now rewrite (IH ys).
Qed.

Lemma raises_get_socket_default_value s :
  raises (get_socket_default_value s) = socket_fails s.
Proof.
  unfold get_socket_default_value, socket_fails.
  now destruct (s_default_value s).
Qed.

Lemma raises_type_specific n d :
  raises (type_specific n d) = type_specific_fails n.
Proof.
  unfold type_specific, type_specific_fails.
  destruct (String.eqb (n_type n) "VALTORGB");
    [now destruct (n_color_ramp n)|].
  destruct (String.eqb (n_type n) "CURVE_RGB");
    [now destruct (n_mapping n)|].
  destruct (String.eqb (n_type n) "TEX_IMAGE"); [|reflexivity].
  now destruct (n_image n) as [| |[i|]].
Qed.

(** X6.  [export_node_to_dict] raises exactly when the [default_value] of
    one of the node's sockets raises on reading, or the attribute its type
    calls for ([color_ramp], [mapping], [image]) cannot be read.  No
    property can make it raise. *)
Theorem export_node_to_dict_raises (n : node) :
  raises (export_node_to_dict n) =
  existsb socket_fails (n_inputs n) || existsb socket_fails (n_outputs n)
  || type_specific_fails n.
Proof.
  unfold export_node_to_dict.
  pose proof (raises_mapM input_socket_data (n_inputs n)) as Hi.
  pose proof (raises_mapM output_socket_data (n_outputs n)) as Ho.
  assert (Hin : forall l, existsb (fun x => raises (input_socket_data x)) l =
                          existsb socket_fails l).
  { intros l. apply existsb_pointwise. intros s. unfold input_socket_data.
    rewrite <- raises_get_socket_default_value.
    now destruct (get_socket_default_value s). }
  assert (Hout : forall l, existsb (fun x => raises (output_socket_data x)) l =
                           existsb socket_fails l).
  { intros l. apply existsb_pointwise. intros s. unfold output_socket_data.
    rewrite <- raises_get_socket_default_value.
    now destruct (get_socket_default_value s). }
  rewrite Hin in Hi. rewrite Hout in Ho. rewrite <- Hi, <- Ho.
  destruct (Res.mapM input_socket_data (n_inputs n)); simpl; [|reflexivity].
  destruct (Res.mapM output_socket_data (n_outputs n)); simpl; [|reflexivity].
  match goal with
  | |- raises (Res.bind (type_specific n ?d) _) = _ =>
      rewrite <- (raises_type_specific n d); destruct (type_specific n d)
  end; reflexivity.
Qed.

Lemma export_node_to_dict_inv n doc :
  export_node_to_dict n = Ok doc ->
  exists inputs outputs d,
    Res.mapM input_socket_data (n_inputs n) = Ok inputs /\
    Res.mapM output_socket_data (n_outputs n) = Ok outputs /\
    doc = VDict d /\
    type_specific n
      [("name", VStr (n_name n)); ("bl_idname", VStr (n_bl_idname n));
       ("type", VStr (n_type n)); ("label", VStr (n_label n));
       ("location", VList (n_location n)); ("width", n_width n);
       ("height", n_height n); ("hide", VBool (n_hide n));
       ("mute", VBool (n_mute n)); ("inputs", VList inputs);
       ("outputs", VList outputs);
       ("properties",
        VDict (node_properties n (parent_props (n_bases n))
                 (n_properties n) []))] = Ok d.
Proof.
  unfold export_node_to_dict. intros H.
  destruct (Res.mapM input_socket_data (n_inputs n)) as [inputs|]; simpl in H;
    try discriminate.
  destruct (Res.mapM output_socket_data (n_outputs n)) as [outputs|];
    simpl in H; try discriminate.
  match type of H with
  | Res.bind (type_specific n ?d) _ = _ =>
      destruct (type_specific n d) as [d'|] eqn:Ht; simpl in H;
      try discriminate
  end.
  inversion H. exists inputs, outputs, d'. auto.
Qed.

(** X7.  The node document has a [color_ramp] block exactly for a node of
    type [VALTORGB], a [curves] block exactly for [CURVE_RGB], and an
    [image] block exactly for a [TEX_IMAGE] whose image slot is filled;
    so at most one of the three. *)
Theorem node_document_extension_keys (n : node) (doc : value) :
  export_node_to_dict n = Ok doc ->
  doc_has "color_ramp" doc = String.eqb (n_type n) "VALTORGB" /\
  doc_has "curves" doc = String.eqb (n_type n) "CURVE_RGB" /\
  doc_has "image" doc =
    (String.eqb (n_type n) "TEX_IMAGE"
     && match n_image n with Present (Some _) => true | _ => false end).
Proof.
  intros H.
  destruct (export_node_to_dict_inv _ _ H) as (i & o & d & _ & _ & -> & Ht).
  clear H. unfold type_specific in Ht. unfold doc_has, doc_get.
  destruct (String.eqb (n_type n) "VALTORGB") eqn:E1.
  { apply String.eqb_eq in E1. rewrite E1.
    destruct (n_color_ramp n); simpl in Ht; try discriminate.
    inversion Ht; subst d. repeat split. }
  destruct (String.eqb (n_type n) "CURVE_RGB") eqn:E2.
  { apply String.eqb_eq in E2. rewrite E2.
    destruct (n_mapping n); simpl in Ht; try discriminate.
    inversion Ht; subst d. repeat split. }
  destruct (String.eqb (n_type n) "TEX_IMAGE") eqn:E3.
  { destruct (n_image n) as [| |[img|]]; simpl in Ht; try discriminate;
      inversion Ht; subst d; repeat split. }
  inversion Ht; subst d. repeat split.
Qed.

Lemma node_document_extension_keys_witness :
  doc_has "color_ramp" Sample.ramp_document = true /\
  doc_has "curves" Sample.ramp_document = false /\
  doc_has "image" Sample.ramp_document = false.
Proof.
  exact (node_document_extension_keys Sample.ramp Sample.ramp_document eq_refl).
Defined.

(** X8.  For a colour ramp the block lists the stops of the ramp, as many
    and in the same order, each with its position, colour and alpha; for
    RGB curves it lists one entry per curve, in order, each with the
    curve's points. *)
Theorem node_document_ramp_and_curves (n : node) (doc : value) :
  export_node_to_dict n = Ok doc ->
  (n_type n = "VALTORGB" ->
   exists ramp elements,
     n_color_ramp n = Present ramp /\
     match doc_get "color_ramp" doc with
     | Some block => doc_get "elements" block
     | None => None
     end = Some (VList elements) /\
     length elements = length (cr_elements ramp) /\
     forall i elem, nth_error (cr_elements ramp) i = Some elem ->
       nth_error elements i =
       Some (VDict [("position", re_position elem);
                    ("color", VList (re_color elem));
                    ("alpha", re_alpha elem)])) /\
  (n_type n = "CURVE_RGB" ->
   exists mapping curves,
     n_mapping n = Present mapping /\
     doc_get "curves" doc = Some (VList curves) /\
     length curves = length (cm_curves mapping) /\
     forall i c, nth_error (cm_curves mapping) i = Some c ->
       exists points,
         nth_error curves i = Some (VDict [("points", VList points)]) /\
         length points = length (cv_points c)).
Proof.
  intros H.
  destruct (export_node_to_dict_inv _ _ H) as (i & o & d & _ & _ & -> & Ht).
  clear H. unfold type_specific in Ht. split; intros Hty; rewrite Hty in Ht.
  - simpl in Ht. destruct (n_color_ramp n) as [| |ramp]; try discriminate.
    simpl in Ht. inversion Ht; subst d; clear Ht.
    exists ramp, (map ramp_element_data (cr_elements ramp)).
    split; [reflexivity|]. split; [reflexivity|].
    split; [apply length_map|].
    intros k elem Hk. now rewrite nth_error_map, Hk.
  - simpl in Ht. destruct (n_mapping n) as [| |mapping]; try discriminate.
    simpl in Ht. inversion Ht; subst d; clear Ht.
    exists mapping, (map curve_data (cm_curves mapping)).
    split; [reflexivity|]. split; [reflexivity|].
    split; [apply length_map|].
    intros k c Hk. exists (map curve_point_data (cv_points c)).
    split; [now rewrite nth_error_map, Hk | apply length_map].
Qed.

Lemma node_document_ramp_and_curves_witness :
  exists elements,
    match doc_get "color_ramp" Sample.ramp_document with
    | Some block => doc_get "elements" block
    | None => None
    end = Some (VList elements) /\
    length elements = 2.
Proof.
  destruct (node_document_ramp_and_curves Sample.ramp Sample.ramp_document
              eq_refl) as [Hramp _].
  destruct (Hramp eq_refl) as (ramp & elements & Hr & Hget & Hlen & _).
  exists elements. split; [exact Hget|].
  rewrite Hlen. injection Hr as <-. reflexivity.
Defined.

Lemma attach_links_keeps ref s d k :
  k <> "links" -> k <> "is_linked" ->
  Dict.get k (attach_links ref s d) = Dict.get k d.
Proof.
  intros H1 H2. unfold attach_links. destruct (s_is_linked s); auto.
  now rewrite !get_set_other.
Qed.

(** X9.  The node document lists the sockets of the node as the host does:
    [inputs] has one entry per input socket and [outputs] one per output
    socket, in the same order, each under the socket's own name and
    identifier and with the default the socket path of the normalizer
    gives. *)
Theorem node_document_sockets_in_order (n : node) (doc : value) :
  export_node_to_dict n = Ok doc ->
  exists inputs outputs,
    doc_get "inputs" doc = Some (VList inputs) /\
    doc_get "outputs" doc = Some (VList outputs) /\
    length inputs = length (n_inputs n) /\
    length outputs = length (n_outputs n) /\
    (forall i s, nth_error (n_inputs n) i = Some s ->
       exists sd,
         nth_error inputs i = Some sd /\
         doc_get "name" sd = Some (VStr (s_name s)) /\
         doc_get "identifier" sd = Some (VStr (s_identifier s)) /\
         exists default_value,
           get_socket_default_value s = Ok default_value /\
           doc_get "default_value" sd = Some default_value) /\
    (forall i s, nth_error (n_outputs n) i = Some s ->
       exists sd,
         nth_error outputs i = Some sd /\
         doc_get "name" sd = Some (VStr (s_name s)) /\
         doc_get "identifier" sd = Some (VStr (s_identifier s)) /\
         exists default_value,
           get_socket_default_value s = Ok default_value /\
           doc_get "default_value" sd = Some default_value).
Proof.
  intros H.
  destruct (export_node_to_dict_fields _ _ H)
    as (inputs & outputs & Hi & Ho & Hgi & Hgo & _).
  exists inputs, outputs. split; [exact Hgi|]. split; [exact Hgo|].
  split; [exact (length_mapM _ _ _ Hi)|].
  split; [exact (length_mapM _ _ _ Ho)|]. split.
  - intros i s Hn. destruct (mapM_nth_error _ _ _ _ _ Hi Hn) as [sd [Hsd Hs]].
    exists sd. split; [exact Hsd|]. unfold input_socket_data in Hs.
    destruct (get_socket_default_value s) as [dv|]; simpl in Hs;
      try discriminate.
    inversion Hs; subst sd. simpl.
    rewrite !attach_links_keeps by discriminate.
    split; [reflexivity|]. split; [reflexivity|]. exists dv. auto.
  - intros i s Hn. destruct (mapM_nth_error _ _ _ _ _ Ho Hn) as [sd [Hsd Hs]].
    exists sd. split; [exact Hsd|]. unfold output_socket_data in Hs.
    destruct (get_socket_default_value s) as [dv|]; simpl in Hs;
      try discriminate.
    inversion Hs; subst sd. simpl.
    rewrite !attach_links_keeps by discriminate.
    split; [reflexivity|]. split; [reflexivity|]. exists dv. auto.
Qed.

Lemma node_document_sockets_in_order_witness :
  exists inputs outputs,
    doc_get "inputs" Sample.math_document = Some (VList inputs) /\
    doc_get "outputs" Sample.math_document = Some (VList outputs) /\
    length inputs = 2 /\ length outputs = 1.
Proof.
  destruct (node_document_sockets_in_order Sample.math Sample.math_document
              eq_refl) as (inputs & outputs & Hi & Ho & Hli & Hlo & _).
  exists inputs, outputs. auto.
Defined.

Lemma node_properties_keeps_keys n parents props acc k :
  In k (Dict.keys acc) ->
  In k (Dict.keys (node_properties n parents props acc)).
Proof.
  revert acc. induction props as [|p rest IH]; simpl; intros acc H; auto.
  destruct (skip_property parents p); auto.
  destruct (get_property_info n p); auto.
  apply IH. apply in_keys_set. auto.
Qed.

Lemma node_properties_get_other n parents props acc k :
  ~ In k (map p_identifier props) ->
  Dict.get k (node_properties n parents props acc) = Dict.get k acc.
Proof.
  revert acc. induction props as [|p rest IH]; simpl; intros acc H; auto.
  assert (Hrest : ~ In k (map p_identifier rest)) by tauto.
  destruct (skip_property parents p); auto.
  destruct (get_property_info n p); auto.
  rewrite IH by exact Hrest. apply get_set_other. intros ->. tauto.
Qed.

Lemma catalog_properties_complete c n parents props p info :
  In p props -> skip_property parents p = false ->
  get_property_info n p = Ok info ->
  In info (fst (catalog_properties c n parents props)).
Proof.
  intros Hin Hs Hg. induction props as [|q rest IH]; [destruct Hin|].
  simpl. destruct (catalog_properties c n parents rest) as [infos lines].
  simpl in IH. destruct Hin as [->|Hin].
  - rewrite Hs, Hg. simpl. auto.
  - destruct (skip_property parents q); auto.
    destruct (get_property_info n q); simpl; auto.
Qed.

(** X10.  No readable own property is lost.  A property of the node that the
    two guards let through and that [get_property_info] can describe is in
    the output of both paths: in the material path its identifier is a key
    of [properties] (and the value under it is that description when the
    identifiers of the node are distinct), in the catalog path the
    description is in the [properties] list. *)
Theorem readable_property_is_recorded (n : node) (c : node_class) (p : prop)
  (info : value) :
  In p (n_properties n) ->
  get_property_info n p = Ok info ->
  (skip_property (parent_props (n_bases n)) p = false ->
   forall doc, export_node_to_dict n = Ok doc ->
     exists properties,
       doc_get "properties" doc = Some (VDict properties) /\
       Dict.has (p_identifier p) properties = true /\
       (NoDup (map p_identifier (n_properties n)) ->
        Dict.get (p_identifier p) properties = Some info)) /\
  (skip_property (parent_props (cls_bases c)) p = false ->
   forall entry lines, node_info c n = Ok (entry, lines) ->
     exists properties,
       doc_get "properties" entry = Some (VList properties) /\
       In info properties).
Proof.
  intros Hin Hg. split.
  - intros Hs doc H.
    destruct (export_node_to_dict_fields _ _ H) as (i & o & _ & _ & _ & _ & Hp).
    eexists. split; [exact Hp|].
    destruct (in_split _ _ Hin) as (l1 & l2 & Hl). rewrite Hl.
    rewrite node_properties_app. simpl. rewrite Hs, Hg. split.
    + apply has_iff. apply node_properties_keeps_keys.
      apply in_keys_set. auto.
    + intros Hnd. rewrite map_app in Hnd. simpl in Hnd.
      apply NoDup_remove_2 in Hnd.
      rewrite node_properties_get_other.
      * apply get_set_same.
      * intros Hk. apply Hnd. apply in_or_app. auto.
  - intros Hs entry lines H. unfold node_info in H.
    destruct (Res.mapM catalog_input_info (n_inputs n)); simpl in H;
      try discriminate.
    pose proof (catalog_properties_complete c n _ _ p info Hin Hs Hg) as Hc.
    destruct (catalog_properties c n (parent_props (cls_bases c))
                (n_properties n)) as [properties ls].
    inversion H; subst. exists properties. split; [reflexivity | exact Hc].
Qed.

Lemma readable_property_is_recorded_witness :
  exists properties,
    doc_get "properties" Sample.math_document = Some (VDict properties) /\
    Dict.has "operation" properties = true /\
    exists listed,
      doc_get "properties" (fst Sample.math_entry) = Some (VList listed) /\
      In (VDict [("identifier", VStr "operation"); ("name", VStr "Operation");
                 ("type", VStr "ENUM"); ("description", VStr "");
                 ("current_value", VStr "ADD");
                 ("enum_items", VList [VStr "ADD"; VStr "MULTIPLY"])])
         listed.
Proof.
  assert (Hin : In Sample.operation (n_properties Sample.math))
    by (simpl; auto).
  destruct (readable_property_is_recorded Sample.math Sample.math_class
              Sample.operation _ Hin eq_refl) as [Hmat Hcat].
  destruct (Hmat eq_refl Sample.math_document eq_refl)
    as (properties & Hp & Hhas & _).
  destruct (Hcat eq_refl (fst Sample.math_entry) (snd Sample.math_entry)
              eq_refl) as (listed & Hl & Hmem).
  exists properties. split; [exact Hp|]. split; [exact Hhas|].
  exists listed. split; [exact Hl | exact Hmem].
Defined.

(** ** Material Graph Exporter *)

Lemma lookup_set_file_same path f fs :
  lookup_file path (Host.set_file path f fs) = Some f.
Proof.
  induction fs as [|[p g] fs IH]; simpl.
  - now rewrite String.eqb_refl.
  - destruct (String.eqb path p) eqn:E; simpl; rewrite E; auto.
Qed.

Lemma lookup_set_file_other path path' f fs :
  path' <> path ->
  lookup_file path' (Host.set_file path f fs) = lookup_file path' fs.
Proof.
  intros Hne. induction fs as [|[p g] fs IH]; simpl.
  - destruct (String.eqb path' path) eqn:E; auto.
    apply String.eqb_eq in E. contradiction.
  - destruct (String.eqb path p) eqn:E; simpl.
    + apply String.eqb_eq in E. subst p.
      destruct (String.eqb path' path) eqn:E2; auto.
      apply String.eqb_eq in E2. contradiction.
    + destruct (String.eqb path' p); auto.
Qed.

(** What [json_dump_to] leaves behind, case by case. *)
Lemma json_dump_to_spec path doc indent w :
  materials (snd (Host.json_dump_to path doc indent w)) = materials w /\
  console (snd (Host.json_dump_to path doc indent w)) = console w /\
  unwritable (snd (Host.json_dump_to path doc indent w)) = unwritable w /\
  types (snd (Host.json_dump_to path doc indent w)) = types w /\
  version (snd (Host.json_dump_to path doc indent w)) = version w /\
  (forall p, p <> path ->
     file_at p (snd (Host.json_dump_to path doc indent w)) = file_at p w) /\
  match fst (Host.json_dump_to path doc indent w) with
  | Ok _ =>
      is_json_serializable doc = true /\
      file_at path (snd (Host.json_dump_to path doc indent w)) =
        Some (JsonFile doc indent)
  | Raise e =>
      (e = Exception "OSError" /\
       snd (Host.json_dump_to path doc indent w) = w) \/
      (e = Exception "TypeError" /\ is_json_serializable doc = false /\
       file_at path (snd (Host.json_dump_to path doc indent w)) = Some Partial)
  end.
Proof.
  unfold Host.json_dump_to, file_at.
  destruct (str_in path (unwritable w)); simpl; [repeat split; auto|].
  destruct (is_json_serializable doc); simpl; repeat split; auto;
    try (intros p Hp; now apply lookup_set_file_other).
  - apply lookup_set_file_same.
  - right. repeat split. apply lookup_set_file_same.
Qed.

(** X11.  The material exporter only reads the host's graph: the materials,
    the registered types and the version are the same after any call; it
    prints at most one line; and without a path (none, or the empty string)
    it touches no file. *)
Theorem export_material_reads_only (material_name : string)
  (filepath : option string) (w : world) :
  let w' := snd (export_material_nodes_to_json material_name filepath w) in
  materials w' = materials w /\ types w' = types w /\
  version w' = version w /\
  (truthy_path filepath = None -> files w' = files w) /\
  exists lines, console w' = console w ++ lines /\ length lines <= 1.
Proof.
  unfold export_material_nodes_to_json.
  assert (Hnil : exists lines : list string,
             console w = console w ++ lines /\ length lines <= 1)
    by (exists []; rewrite app_nil_r; auto).
  destruct (Host.materials_get material_name w) as [m|]; simpl;
    [|repeat split; eauto].
  destruct (mat_use_nodes m); simpl; [|repeat split; eauto].
  destruct (Res.mapM export_node_to_dict (nt_nodes (mat_node_tree m)));
    simpl; [|repeat split; auto].
  destruct (truthy_path filepath) as [path|]; simpl; [|repeat split; auto].
  match goal with
  | |- context [Host.json_dump_to ?p ?d ?i ?w0] =>
      destruct (json_dump_to_spec p d i w0) as (Hm & Hc & _ & Ht & Hv & _);
      destruct (Host.json_dump_to p d i w0) as [[u|e] w1]
  end; simpl in *; repeat split; auto; try discriminate.
  - exists [("Exported material to " ++ path)%string]. rewrite Hc. auto.
  - rewrite Hc. exact Hnil.
Qed.

(** X12.  A document that is returned lists the graph as the host holds it:
    one node document per node of the tree, in the tree's order, each the
    serialization of that node, and one link document per link, in order,
    with the names and identifiers of both ends. *)
Theorem material_document_lists_graph (material_name : string)
  (filepath : option string) (w : world) (doc : value) :
  fst (export_material_nodes_to_json material_name filepath w) = Ok (Some doc) ->
  exists m nodes links,
    Host.materials_get material_name w = Some m /\
    mat_use_nodes m = true /\
    doc_get "material_name" doc = Some (VStr material_name) /\
    doc_get "nodes" doc = Some (VList nodes) /\
    doc_get "links" doc = Some (VList links) /\
    length nodes = length (nt_nodes (mat_node_tree m)) /\
    length links = length (nt_links (mat_node_tree m)) /\
    (forall i n, nth_error (nt_nodes (mat_node_tree m)) i = Some n ->
       exists nd, nth_error nodes i = Some nd /\ export_node_to_dict n = Ok nd) /\
    (forall i l, nth_error (nt_links (mat_node_tree m)) i = Some l ->
       exists ld,
         nth_error links i = Some ld /\
         doc_get "from_node" ld = Some (VStr (nr_name (from_node l))) /\
         doc_get "from_socket_identifier" ld =
           Some (VStr (sr_identifier (from_socket l))) /\
         doc_get "to_node" ld = Some (VStr (nr_name (to_node l))) /\
         doc_get "to_socket_identifier" ld =
           Some (VStr (sr_identifier (to_socket l)))).
Proof.
  unfold export_material_nodes_to_json.
  destruct (Host.materials_get material_name w) as [m|]; [|discriminate].
  destruct (mat_use_nodes m) eqn:Hu; [|discriminate]. simpl.
  destruct (Res.mapM export_node_to_dict (nt_nodes (mat_node_tree m)))
    as [nodes|] eqn:Hn; [|discriminate].
  intros H.
  assert (Hdoc : doc =
    VDict [("material_name", VStr material_name);
           ("blend_method", VStr (mat_blend_method m));
           ("use_backface_culling", VBool (mat_use_backface_culling m));
           ("nodes", VList nodes);
           ("links", VList (map link_data (nt_links (mat_node_tree m))))]).
  { destruct (truthy_path filepath) as [path|].
    - match type of H with
      | context [Host.json_dump_to ?p ?d ?i ?w0] =>
          destruct (Host.json_dump_to p d i w0) as [[u|e] w1]
      end; simpl in H; congruence.
    - simpl in H. congruence. }
  subst doc. exists m, nodes, (map link_data (nt_links (mat_node_tree m))).
  repeat split; auto.
  - exact (length_mapM _ _ _ Hn).
  - apply length_map.
  - intros i n Hi. exact (mapM_nth_error _ _ _ _ _ Hn Hi).
  - intros i l Hi. exists (link_data l). rewrite nth_error_map, Hi.
    repeat split.
Qed.

Lemma material_document_lists_graph_witness :
  exists nodes links,
    doc_get "nodes"
      (match fst (export_material_nodes_to_json "Metal" None Sample.host) with
       | Ok (Some doc) => doc
       | _ => VNone
       end) = Some (VList nodes) /\
    doc_get "links"
      (match fst (export_material_nodes_to_json "Metal" None Sample.host) with
       | Ok (Some doc) => doc
       | _ => VNone
       end) = Some (VList links) /\
    length nodes = 2 /\ length links = 1.
Proof.
  destruct (material_document_lists_graph "Metal" None Sample.host _ eq_refl)
    as (m & nodes & links & Hm & _ & _ & Hn & Hl & Hln & Hll & _).
  exists nodes, links. split; [exact Hn|]. split; [exact Hl|].
  injection Hm as <-. split; [exact Hln | exact Hll].
Defined.

(** X13.  What is written is what is returned.  When the call returns a
    document and was given a path, the file at that path holds that
    document with indent 2, every other file is as it was, the document is
    JSON-safe, and the one line printed names the path; given no path, the
    call writes and prints nothing. *)
Theorem material_file_holds_document (material_name : string)
  (filepath : option string) (w : world) (doc : value) :
  let w' := snd (export_material_nodes_to_json material_name filepath w) in
  fst (export_material_nodes_to_json material_name filepath w) = Ok (Some doc) ->
  match truthy_path filepath with
  | Some path =>
      file_at path w' = Some (JsonFile doc 2) /\
      (forall p, p <> path -> file_at p w' = file_at p w) /\
      is_json_serializable doc = true /\
      console w' = console w ++ [("Exported material to " ++ path)%string]
  | None => files w' = files w /\ console w' = console w
  end.
Proof.
  unfold export_material_nodes_to_json.
  destruct (Host.materials_get material_name w) as [m|]; [|discriminate].
  destruct (mat_use_nodes m); [|discriminate]. simpl.
  destruct (Res.mapM export_node_to_dict (nt_nodes (mat_node_tree m)))
    as [nodes|]; [|discriminate].
  destruct (truthy_path filepath) as [path|]; [|simpl; auto].
  match goal with
  | |- context [Host.json_dump_to ?p ?d ?i ?w0] =>
      destruct (json_dump_to_spec p d i w0)
        as (_ & Hc & _ & _ & _ & Hother & Hres);
      destruct (Host.json_dump_to p d i w0) as [[u|e] w1]
  end; simpl in *; [|discriminate].
  intros H. inversion H; subst doc. destruct Hres as [Hsafe Hfile].
  repeat split; auto. now rewrite Hc.
Qed.

Lemma material_file_holds_document_witness :
  exists doc,
    file_at "/tmp/m.json"
      (snd (export_material_nodes_to_json "Metal" (Some "/tmp/m.json")
              Sample.host)) = Some (JsonFile doc 2) /\
    is_json_serializable doc = true.
Proof.
  eexists.
  destruct (material_file_holds_document "Metal" (Some "/tmp/m.json")
              Sample.host _ eq_refl) as (Hfile & _ & Hsafe & _).
  split; [exact Hfile | exact Hsafe].
Defined.

(** X14.  When the call raises, it has printed nothing, and the only file
    it can have touched is the target: either every file is as it was (a
    node could not be serialized, or the path could not be opened), or
    [json.dump] rejected the document with a [TypeError] and the target is
    left half written. *)
Theorem material_export_failure_modes (material_name : string)
  (filepath : option string) (w : world) (e : exn) :
  let w' := snd (export_material_nodes_to_json material_name filepath w) in
  fst (export_material_nodes_to_json material_name filepath w) = Raise e ->
  console w' = console w /\
  (w' = w \/
   exists path,
     truthy_path filepath = Some path /\ e = Exception "TypeError" /\
     file_at path w' = Some Partial /\
     forall p, p <> path -> file_at p w' = file_at p w).
Proof.
  unfold export_material_nodes_to_json.
  destruct (Host.materials_get material_name w) as [m|]; [|discriminate].
  destruct (mat_use_nodes m); [|discriminate]. simpl.
  destruct (Res.mapM export_node_to_dict (nt_nodes (mat_node_tree m)))
    as [nodes|]; [|simpl; auto].
  destruct (truthy_path filepath) as [path|]; [|discriminate].
  match goal with
  | |- context [Host.json_dump_to ?p ?d ?i ?w0] =>
      destruct (json_dump_to_spec p d i w0)
        as (_ & Hc & _ & _ & _ & Hother & Hres);
      destruct (Host.json_dump_to p d i w0) as [[u|e'] w1]
  end; simpl in *; [discriminate|].
  intros H. inversion H; subst e'. split; [exact Hc|].
  destruct Hres as [[_ ->]|(-> & _ & Hfile)]; [auto|].
  right. exists path. auto.
Qed.

Lemma material_export_failure_modes_witness :
  fst (export_material_nodes_to_json "Rough" (Some "/tmp/r.json") Faulty.host)
    = Raise (Exception "TypeError") /\
  console (snd (export_material_nodes_to_json "Rough" (Some "/tmp/r.json")
                  Faulty.host)) = [] /\
  file_at "/tmp/r.json"
    (snd (export_material_nodes_to_json "Rough" (Some "/tmp/r.json")
            Faulty.host)) = Some Partial.
Proof.
  split; [reflexivity|].
  destruct (material_export_failure_modes "Rough" (Some "/tmp/r.json")
              Faulty.host (Exception "TypeError") eq_refl) as [Hc _].
  split; [exact Hc | reflexivity].
Defined.

(** X15.  One node that cannot be serialized stops the export of the whole
    material: the call raises, and the host is exactly as it was, with
    nothing printed and nothing written, whatever the other nodes are. *)
Theorem bad_node_aborts_material_export (material_name : string)
  (filepath : option string) (w : world) (m : material) (n : node) :
  Host.materials_get material_name w = Some m ->
  mat_use_nodes m = true ->
  In n (nt_nodes (mat_node_tree m)) ->
  raises (export_node_to_dict n) = true ->
  exists e,
    export_material_nodes_to_json material_name filepath w = (Raise e, w).
Proof.
  intros Hget Hu Hin Hr. unfold export_material_nodes_to_json.
  rewrite Hget, Hu. simpl.
  assert (H : raises (Res.mapM export_node_to_dict
                        (nt_nodes (mat_node_tree m))) = true).
  { rewrite raises_mapM. apply existsb_exists. eauto. }
  destruct (Res.mapM export_node_to_dict (nt_nodes (mat_node_tree m)))
    as [nodes|e]; [discriminate | eauto].
Qed.

Lemma bad_node_aborts_material_export_witness :
  exists e,
    export_material_nodes_to_json "Stale" (Some "/tmp/s.json") Faulty.host =
    (Raise e, Faulty.host).
Proof.
  apply (bad_node_aborts_material_export "Stale" (Some "/tmp/s.json")
           Faulty.host (Faulty.material_of 2 "Stale" [Sample.math; Faulty.stale])
           Faulty.stale).
  - reflexivity.
  - reflexivity.
  - simpl. auto.
  - reflexivity.
Defined.

(** ** Catalog Generator *)

(** X16.  A class gets no catalog entry exactly when it cannot be
    instantiated or the [default_value] of one of the instance's input
    sockets raises on reading.  Output sockets, properties and the
    type-specific attributes are never a reason. *)
Theorem catalog_entry_raises (c : node_class) :
  raises (catalog_entry c) =
  match cls_new c with
  | Ok n => existsb socket_fails (n_inputs n)
  | Raise _ => true
  end.
Proof.
  unfold catalog_entry. destruct (cls_new c) as [n|e]; [|reflexivity].
  simpl. unfold node_info.
  pose proof (raises_mapM catalog_input_info (n_inputs n)) as Hi.
  rewrite (existsb_pointwise _ socket_fails) in Hi.
  - rewrite <- Hi.
    destruct (Res.mapM catalog_input_info (n_inputs n)); simpl; auto.
    now destruct (catalog_properties c n (parent_props (cls_bases c))
                    (n_properties n)).
  - intros s. unfold catalog_input_info.
    rewrite <- raises_get_socket_default_value.
    now destruct (get_socket_default_value s).
Qed.

Lemma leb_refl s : String.leb s s = true.
Proof.
  unfold String.leb.
  pose proof (proj2 (String_as_OT.cmp_eq s s) eq_refl) as H.
  unfold String_as_OT.cmp in H. now rewrite H.
Qed.

Lemma insert_by_name_stable k c l :
  filter (fun x => String.eqb (cls_name x) k) (insert_by_name c l) =
  filter (fun x => String.eqb (cls_name x) k) (c :: l).
Proof.
  induction l as [|d l IH]; [reflexivity|].
  simpl insert_by_name.
  destruct (String.leb (cls_name c) (cls_name d)) eqn:E; [reflexivity|].
  simpl. simpl in IH. rewrite IH.
  destruct (String.eqb (cls_name c) k) eqn:Ec;
    destruct (String.eqb (cls_name d) k) eqn:Ed; try reflexivity.
  apply String.eqb_eq in Ec, Ed. rewrite Ec, Ed, leb_refl in E. discriminate.
Qed.

(** X17.  The order in which the classes are scanned is the stable sort of
    the candidates by class name: the same classes, names ascending by code
    point, and classes of one name in the order they were found. *)
Theorem sorted_by_name_stable_sort (l : list node_class) :
  Permutation (sorted_by_name l) l /\
  StronglySorted name_le (sorted_by_name l) /\
  forall k,
    filter (fun x => String.eqb (cls_name x) k) (sorted_by_name l) =
    filter (fun x => String.eqb (cls_name x) k) l.
Proof.
  split; [apply sorted_by_name_perm|].
  split; [apply sorted_by_name_sorted|].
  intros k. induction l as [|c l IH]; [reflexivity|].
  simpl sorted_by_name. rewrite insert_by_name_stable. simpl.
  now rewrite IH.
Qed.

Lemma process_class_frame temp_mat c st :
  files (snd (process_class temp_mat c st)) = files (snd st) /\
  unwritable (snd (process_class temp_mat c st)) = unwritable (snd st) /\
  types (snd (process_class temp_mat c st)) = types (snd st) /\
  version (snd (process_class temp_mat c st)) = version (snd st).
Proof.
  destruct st as [d w]. unfold process_class, Host.nodes_new.
  destruct (cls_new c) as [n|e]; simpl; auto.
  destruct (node_info c n) as [[info lines]|e]; simpl; auto.
Qed.

Lemma scan_frame temp_mat classes st :
  files (snd (scan temp_mat classes st)) = files (snd st) /\
  unwritable (snd (scan temp_mat classes st)) = unwritable (snd st) /\
  types (snd (scan temp_mat classes st)) = types (snd st) /\
  version (snd (scan temp_mat classes st)) = version (snd st).
Proof.
  revert st. induction classes as [|c rest IH]; intros st; [simpl; auto|].
  rewrite scan_cons.
  destruct (IH (process_class temp_mat c st)) as (H1 & H2 & H3 & H4).
  destruct (process_class_frame temp_mat c st) as (F1 & F2 & F3 & F4).
  repeat split; congruence.
Qed.

Lemma scan_fst temp_mat classes st :
  fst (scan temp_mat classes st) = catalog_entries classes (fst st).
Proof.
  destruct st as [d w]. simpl fst.
  revert d w. induction classes as [|c rest IH]; intros d w; [reflexivity|].
  rewrite scan_cons. unfold catalog_entries. simpl fold_left.
  pose proof (process_class_spec temp_mat c d w) as H.
  destruct (process_class temp_mat c (d, w)) as [d1 w1]. simpl in H.
  rewrite IH. unfold catalog_entries. f_equal.
  destruct (catalog_entry c) as [[info lines]|e]; now destruct H.
Qed.

(** What the call returns when it returns. *)
Lemma generate_returns_catalog_document filepath w doc :
  fst (generate_master_shader_nodes_json filepath w) = Ok doc ->
  doc = catalog_document w.
Proof.
  unfold generate_master_shader_nodes_json, Host.materials_new,
    catalog_document.
  match goal with
  | |- context [scan ?t ?l ?st] =>
      pose proof (scan_fst t l st) as Hs;
      revert Hs; destruct (scan t l st) as [shader_nodes w1]; intros Hs
  end.
  simpl in Hs. subst shader_nodes.
  destruct (truthy_path filepath) as [path|].
  - match goal with
    | |- context [Host.json_dump_to ?p ?d ?i ?w0] =>
        destruct (Host.json_dump_to p d i w0) as [[u|e] w2]
    end; simpl; intros H; [now inversion H | discriminate].
  - simpl. intros H. now inversion H.
Qed.

Lemma generate_without_path_returns w :
  fst (generate_master_shader_nodes_json None w) = Ok (catalog_document w).
Proof.
  destruct (fst (generate_master_shader_nodes_json None w)) as [doc|e] eqn:E.
  - now rewrite (generate_returns_catalog_document None w doc E).
  - exfalso. revert E.
    unfold generate_master_shader_nodes_json, Host.materials_new.
    match goal with
    | |- context [scan ?t ?l ?st] => destruct (scan t l st)
    end. discriminate.
Qed.

(** X18.  The catalog is a function of the registered types and the host
    version alone: two hosts that agree on these get the same document,
    whatever materials, files and console lines they hold. *)
Theorem catalog_depends_on_registry_only (w1 w2 : world) :
  types w1 = types w2 -> version w1 = version w2 ->
  fst (generate_master_shader_nodes_json None w1) =
  fst (generate_master_shader_nodes_json None w2).
Proof.
  intros Ht Hv. rewrite !generate_without_path_returns.
  unfold catalog_document, shader_node_types. now rewrite Ht, Hv.
Qed.

Lemma catalog_depends_on_registry_only_witness :
  fst (generate_master_shader_nodes_json None Sample.host) =
  fst (generate_master_shader_nodes_json None
         {| materials := []; console := ["earlier line"];
            files := [("/tmp/old.json", Partial)]; unwritable := [];
            types := types Sample.host; version := version Sample.host |}).
Proof.
  apply (catalog_depends_on_registry_only Sample.host
           {| materials := []; console := ["earlier line"];
              files := [("/tmp/old.json", Partial)]; unwritable := [];
              types := types Sample.host; version := version Sample.host |});
    reflexivity.
Defined.

Lemma scan_console temp_mat classes st :
  console (snd (scan temp_mat classes st)) =
  console (snd st) ++ catalog_lines classes.
Proof.
  revert st. induction classes as [|c rest IH]; intros [d w].
  - simpl. now rewrite app_nil_r.
  - rewrite scan_cons, IH. simpl catalog_lines.
    pose proof (process_class_spec temp_mat c d w) as H.
    destruct (process_class temp_mat c (d, w)) as [d1 w1]. simpl in H |- *.
    rewrite app_assoc. f_equal.
    destruct (catalog_entry c) as [[info lines]|e]; now destruct H.
Qed.

(** The call, step by step: the host as the scan and the removal of the
    scratch material leave it, then the writing of the file. *)
Lemma generate_steps filepath w :
  let classes := sorted_by_name (shader_node_types w) in
  exists w1,
    files w1 = files w /\ unwritable w1 = unwritable w /\
    types w1 = types w /\ version w1 = version w /\
    console w1 = console w ++ found_line w :: catalog_lines classes /\
    generate_master_shader_nodes_json filepath w =
    match truthy_path filepath with
    | Some path =>
        match Host.json_dump_to path (catalog_document w) 4 w1 with
        | (Ok _, w2) =>
            (Ok (catalog_document w),
             Host.print
               ("Total nodes exported: "
                ++ str_of_nat (length (catalog_entries classes [])))
               (Host.print ("Master shader nodes exported to " ++ path) w2))
        | (Raise e, w2) => (Raise e, w2)
        end
    | None => (Ok (catalog_document w), w1)
    end.
Proof.
  intros classes.
  unfold generate_master_shader_nodes_json, Host.materials_new,
    catalog_document.
  match goal with
  | |- context [scan ?t ?l ?st] =>
      change l with classes;
      pose proof (scan_fst t classes st) as Hd;
      pose proof (scan_console t classes st) as Hc;
      pose proof (scan_frame t classes st) as (Hf & Hu & Hty & Hve);
      revert Hd Hc Hf Hu Hty Hve;
      destruct (scan t classes st) as [shader_nodes w1];
      intros Hd Hc Hf Hu Hty Hve
  end.
  simpl in Hd, Hc, Hf, Hu, Hty, Hve. subst shader_nodes.
  exists (Host.materials_remove
            {| mat_id := Host.fresh_id (materials w);
               mat_name := "_temp_master_export"; mat_use_nodes := false;
               mat_blend_method := "OPAQUE";
               mat_use_backface_culling := false;
               mat_node_tree := {| nt_nodes := []; nt_links := [] |} |} w1).
  split; [exact Hf|]. split; [exact Hu|].
  split; [exact Hty|]. split; [exact Hve|]. split.
  - simpl. rewrite Hc, <- app_assoc. reflexivity.
  - reflexivity.
Qed.

(** X19.  What the catalog call writes is what it returns.  When it returns
    and was given a path, the file at that path holds the returned document
    with indent 4, every other file is as it was, and the console has
    gained, in this order: the count of candidates, the lines of the scan,
    the line naming the path, and the count of entries.  Given no path, it
    writes nothing and prints the first two only. *)
Theorem catalog_file_holds_document (filepath : option string) (w : world)
  (doc : value) :
  let classes := sorted_by_name (shader_node_types w) in
  let w' := snd (generate_master_shader_nodes_json filepath w) in
  fst (generate_master_shader_nodes_json filepath w) = Ok doc ->
  doc = catalog_document w /\
  match truthy_path filepath with
  | Some path =>
      file_at path w' = Some (JsonFile doc 4) /\
      (forall p, p <> path -> file_at p w' = file_at p w) /\
      is_json_serializable doc = true /\
      console w' =
        console w ++ found_line w :: catalog_lines classes
        ++ [("Master shader nodes exported to " ++ path)%string;
            ("Total nodes exported: "
             ++ str_of_nat (length (catalog_entries classes [])))%string]
  | None =>
      files w' = files w /\
      console w' = console w ++ found_line w :: catalog_lines classes
  end.
Proof.
  intros classes w'. subst w'.
  destruct (generate_steps filepath w) as (w1 & Hf & Hu & _ & _ & Hc & ->).
  fold classes in Hc |- *.
  destruct (truthy_path filepath) as [path|].
  - destruct (json_dump_to_spec path (catalog_document w) 4 w1)
      as (_ & Hc2 & _ & _ & _ & Hother & Hres).
    destruct (Host.json_dump_to path (catalog_document w) 4 w1)
      as [[u|e] w2]; cbn [fst snd] in *; [|discriminate].
    intros H. inversion H; subst doc. destruct Hres as [Hsafe Hfile].
    split; [reflexivity|]. split; [exact Hfile|]. split.
    + intros p Hp. specialize (Hother p Hp). unfold file_at in *.
      cbn [files Host.print]. congruence.
    + split; [exact Hsafe|]. cbn [console Host.print]. rewrite Hc2, Hc.
      rewrite <- !app_assoc. reflexivity.
  - cbn [fst snd]. intros H. inversion H. auto.
Qed.

Lemma catalog_file_holds_document_witness :
  file_at "/tmp/c.json"
    (snd (generate_master_shader_nodes_json (Some "/tmp/c.json") Sample.host))
  = Some (JsonFile (catalog_document Sample.host) 4) /\
  console (snd (generate_master_shader_nodes_json (Some "/tmp/c.json")
                  Sample.host)) =
    ["Found 3 shader node types";
     "Could not process ShaderNodeCustomGroup: node type cannot be added";
     "Could not get property broken for ShaderNodeMath: no items";
     "Master shader nodes exported to /tmp/c.json";
     "Total nodes exported: 2"].
Proof.
  destruct (catalog_file_holds_document (Some "/tmp/c.json") Sample.host
              (catalog_document Sample.host) eq_refl)
    as (_ & Hfile & _ & _ & Hcon).
  split; [exact Hfile | exact Hcon].
Defined.

(** X20.  The catalog call can raise only while writing the file.  Then the
    scan has run and printed its lines, the line naming the path has not
    been printed, and either the path could not be opened and every file is
    as it was, or [json.dump] rejected the catalog and the file is left
    half written. *)
Theorem catalog_failure_modes (filepath : option string) (w : world)
  (e : exn) :
  let classes := sorted_by_name (shader_node_types w) in
  let w' := snd (generate_master_shader_nodes_json filepath w) in
  fst (generate_master_shader_nodes_json filepath w) = Raise e ->
  exists path,
    truthy_path filepath = Some path /\
    console w' = console w ++ found_line w :: catalog_lines classes /\
    ((e = Exception "OSError" /\ str_in path (unwritable w) = true /\
      files w' = files w) \/
     (e = Exception "TypeError" /\
      is_json_serializable (catalog_document w) = false /\
      file_at path w' = Some Partial /\
      forall p, p <> path -> file_at p w' = file_at p w)).
Proof.
  intros classes w'. subst w'.
  destruct (generate_steps filepath w) as (w1 & Hf & Hu & _ & _ & Hc & ->).
  fold classes in Hc |- *.
  destruct (truthy_path filepath) as [path|]; [|discriminate].
  intros Hr. exists path. split; [reflexivity|]. revert Hr.
  unfold Host.json_dump_to, file_at. rewrite Hu.
  destruct (str_in path (unwritable w)); cbn [fst snd].
  - intros H. inversion H. split; [exact Hc|]. left. auto.
  - destruct (is_json_serializable (catalog_document w)); cbn [fst snd];
      [discriminate|].
    intros H. inversion H. split; [exact Hc|]. right.
    split; [reflexivity|]. split; [reflexivity|].
    cbn [files Host.write_file].
    split; [apply lookup_set_file_same|].
    intros p Hp. rewrite lookup_set_file_other by exact Hp. now rewrite Hf.
Qed.

Lemma catalog_failure_modes_witness :
  fst (generate_master_shader_nodes_json (Some "/proc/out.json") Sample.host)
    = Raise (Exception "OSError") /\
  files (snd (generate_master_shader_nodes_json (Some "/proc/out.json")
                Sample.host)) = [].
Proof.
  split; [reflexivity|].
  destruct (catalog_failure_modes (Some "/proc/out.json") Sample.host
              (Exception "OSError") eq_refl)
    as (path & Hp & _ & [(_ & _ & Hfiles)|(Hbad & _)]).
  - exact Hfiles.
  - discriminate Hbad.
Defined.

(** ** Batch drivers *)

Lemma export_material_keeps_host material_name filepath w :
  let w' := snd (export_material_nodes_to_json material_name filepath w) in
  materials w' = materials w /\ types w' = types w /\
  version w' = version w /\
  exists lines, console w' = console w ++ lines.
Proof.
  unfold export_material_nodes_to_json.
  assert (Hnil : exists lines : list string, console w = console w ++ lines)
    by (exists []; now rewrite app_nil_r).
  destruct (Host.materials_get material_name w) as [m|]; simpl;
    [|repeat split; eauto].
  destruct (mat_use_nodes m); simpl; [|repeat split; eauto].
  destruct (Res.mapM export_node_to_dict (nt_nodes (mat_node_tree m)));
    simpl; [|repeat split; auto].
  destruct (truthy_path filepath) as [path|]; simpl; [|repeat split; auto].
  match goal with
  | |- context [Host.json_dump_to ?p ?d ?i ?w0] =>
      destruct (json_dump_to_spec p d i w0) as (Hm & Hc & _ & Ht & Hv & _);
      destruct (Host.json_dump_to p d i w0) as [[u|e] w1]
  end; simpl in *; repeat split; auto.
  - rewrite Hc. eauto.
  - rewrite Hc. exact Hnil.
Qed.

Lemma export_material_other_files material_name path p w :
  p <> path ->
  let w' :=
    snd (export_material_nodes_to_json material_name (Some path) w) in
  file_at p w' = file_at p w.
Proof.
  intros Hp. unfold export_material_nodes_to_json.
  destruct (Host.materials_get material_name w) as [m|]; [|reflexivity].
  destruct (mat_use_nodes m); [|reflexivity]. cbn [negb].
  destruct (Res.mapM export_node_to_dict (nt_nodes (mat_node_tree m)));
    [|reflexivity].
  destruct path as [|ch rest]; [reflexivity|].
  cbn [truthy_path].
  match goal with
  | |- context [Host.json_dump_to ?q ?d ?i ?w0] =>
      destruct (json_dump_to_spec q d i w0) as (_ & _ & _ & _ & _ & Ho & _);
      specialize (Ho p Hp);
      destruct (Host.json_dump_to q d i w0) as [[u|e] w1]
  end; cbn [fst snd] in *; exact Ho.
Qed.

Section DriverFacts.

Variable makedirs : string -> world -> result unit * world.
Variable path_join : string -> string -> string.
Variable set_order : list material -> list material.

Lemma export_all_loop_ok directory mats exported w k w' :
  export_all_loop path_join directory mats exported w = (Ok k, w') ->
  k = exported + length (filter mat_use_nodes mats) /\
  materials w' = materials w /\
  exists lines, console w' = console w ++ lines.
Proof.
  revert exported w. induction mats as [|m rest IH]; simpl; intros exported w H.
  - inversion H; subst. repeat split; [lia|]. exists []. now rewrite app_nil_r.
  - destruct (mat_use_nodes m).
    + destruct (export_material_keeps_host (mat_name m)
                  (Some (path_join directory (mat_name m ++ ".json")%string)) w)
        as (Hm & _ & _ & l1 & Hc).
      destruct (export_material_nodes_to_json (mat_name m)
                  (Some (path_join directory (mat_name m ++ ".json")%string)) w)
        as [[r|e] w1]; [|discriminate].
      simpl in Hm, Hc. destruct (IH _ _ H) as (Hk & Hm' & l2 & Hc').
      split; [simpl; lia|]. split; [congruence|].
      exists (l1 ++ l2). now rewrite Hc', Hc, app_assoc.
    + destruct (IH _ _ H) as (Hk & Hm' & Hc'). auto.
Qed.

(** X21.  When [export_all_materials] completes, the host's materials are
    untouched and the last line printed is the summary, whose count is the
    number of materials that use nodes; the others are passed over. *)
Theorem export_all_summary (directory : string) (w : world) :
  let w0 := snd (makedirs directory w) in
  let w' := snd (export_all_materials makedirs path_join directory w) in
  fst (export_all_materials makedirs path_join directory w) = Ok tt ->
  materials w' = materials w0 /\
  exists lines,
    console w' =
    console w0 ++ lines
    ++ [("Exported "
         ++ str_of_nat (length (filter mat_use_nodes (materials w0)))
         ++ " materials to " ++ directory)%string].
Proof.
  unfold export_all_materials.
  destruct (makedirs directory w) as [[u|e] w0]; cbn [fst snd];
    [|discriminate].
  destruct (export_all_loop path_join directory (materials w0) 0 w0)
    as [[k|e] w1] eqn:E; cbn [fst snd]; [|discriminate].
  intros _. destruct (export_all_loop_ok _ _ _ _ _ _ E) as (-> & Hm & l & Hc).
  split; [exact Hm|]. exists l. cbn [console Host.print].
  rewrite Hc, <- app_assoc. reflexivity.
Qed.

Lemma export_all_loop_app directory l1 l2 exported w :
  export_all_loop path_join directory (l1 ++ l2) exported w =
  match export_all_loop path_join directory l1 exported w with
  | (Ok k, w1) => export_all_loop path_join directory l2 k w1
  | (Raise e, w1) => (Raise e, w1)
  end.
Proof.
  revert exported w. induction l1 as [|m l1 IH]; simpl; intros exported w;
    [reflexivity|].
  destruct (mat_use_nodes m); [|apply IH].
  destruct (export_material_nodes_to_json (mat_name m)
              (Some (path_join directory (mat_name m ++ ".json")%string)) w)
    as [[r|e] w1]; [apply IH | reflexivity].
Qed.

(** X22.  The batch has no guard of its own: when the export of one
    material raises, [export_all_materials] raises the same exception and
    stops there.  The host is left as that export left it: the materials
    after it are not exported and no summary is printed. *)
Theorem export_all_stops_at_first_failure (directory : string) (w w0 w1 w2 : world)
  (before after : list material) (m : material) (k : nat) (e : exn) :
  makedirs directory w = (Ok tt, w0) ->
  materials w0 = before ++ m :: after ->
  export_all_loop path_join directory before 0 w0 = (Ok k, w1) ->
  mat_use_nodes m = true ->
  export_material_nodes_to_json (mat_name m)
    (Some (path_join directory (mat_name m ++ ".json")%string)) w1 =
    (Raise e, w2) ->
  export_all_materials makedirs path_join directory w = (Raise e, w2).
Proof.
  intros Hmk Hms Hbefore Hu He. unfold export_all_materials.
  rewrite Hmk, Hms, export_all_loop_app, Hbefore. simpl.
  now rewrite Hu, He.
Qed.

Lemma export_all_loop_other_files directory mats exported w p :
  (forall m, In m mats -> mat_use_nodes m = true ->
     p <> path_join directory (mat_name m ++ ".json")%string) ->
  file_at p (snd (export_all_loop path_join directory mats exported w)) =
  file_at p w.
Proof.
  revert exported w. induction mats as [|m rest IH]; simpl;
    intros exported w Hp; [reflexivity|].
  assert (Hrest : forall m', In m' rest -> mat_use_nodes m' = true ->
                    p <> path_join directory (mat_name m' ++ ".json")%string)
    by (intros; apply Hp; auto).
  destruct (mat_use_nodes m) eqn:Hu; [|now apply IH].
  pose proof (export_material_other_files (mat_name m)
                (path_join directory (mat_name m ++ ".json")%string) p w
                (Hp m (or_introl eq_refl) Hu)) as Hf.
  destruct (export_material_nodes_to_json (mat_name m)
              (Some (path_join directory (mat_name m ++ ".json")%string)) w)
    as [[r|e] w1]; cbn [snd] in Hf.
  - rewrite IH by exact Hrest. exact Hf.
  - exact Hf.
Qed.

(** X23.  Whether it completes or raises, [export_all_materials] writes
    only where it says: a path that is not [directory/name.json] for a
    material that uses nodes holds after the call what it held when the
    directory had been made. *)
Theorem export_all_touches_only_its_files (directory : string) (w : world)
  (p : string) :
  let w0 := snd (makedirs directory w) in
  (forall m, In m (materials w0) -> mat_use_nodes m = true ->
     p <> path_join directory (mat_name m ++ ".json")%string) ->
  file_at p (snd (export_all_materials makedirs path_join directory w)) =
  file_at p w0.
Proof.
  unfold export_all_materials.
  destruct (makedirs directory w) as [[u|e] w0]; cbn [snd]; [|reflexivity].
  intros Hp.
  pose proof (export_all_loop_other_files directory (materials w0) 0 w0 p Hp)
    as Hf.
  destruct (export_all_loop path_join directory (materials w0) 0 w0)
    as [[k|e] w1]; exact Hf.
Qed.

End DriverFacts.

Lemma export_all_summary_witness :
  exists lines,
    console (snd (export_all_materials Posix.makedirs Posix.join
                    "/tmp/materials" Sample.host)) =
    lines ++ ["Exported 1 materials to /tmp/materials"].
Proof.
  destruct (export_all_summary Posix.makedirs Posix.join "/tmp/materials"
              Sample.host eq_refl) as (_ & lines & Hc).
  exists lines. exact Hc.
Defined.

Lemma export_all_stops_at_first_failure_witness :
  fst (export_all_materials Posix.makedirs Posix.join "/tmp/materials"
         Faulty.host) = Raise (Exception "TypeError") /\
  console (snd (export_all_materials Posix.makedirs Posix.join
                  "/tmp/materials" Faulty.host)) = [] /\
  file_at "/tmp/materials/Stale.json"
    (snd (export_all_materials Posix.makedirs Posix.join "/tmp/materials"
            Faulty.host)) = None.
Proof.
  rewrite (export_all_stops_at_first_failure Posix.makedirs Posix.join
             "/tmp/materials" Faulty.host Faulty.host Faulty.host
             (Host.write_file "/tmp/materials/Rough.json" Partial Faulty.host)
             []
             [Faulty.material_of 2 "Stale" [Sample.math; Faulty.stale];
              Sample.flat]
             (Faulty.material_of 1 "Rough" [Faulty.mix]) 0
             (Exception "TypeError")
             eq_refl eq_refl eq_refl eq_refl eq_refl).
  repeat split.
Defined.

Lemma export_all_touches_only_its_files_witness :
  file_at "/tmp/materials/Flat.json"
    (snd (export_all_materials Posix.makedirs Posix.join "/tmp/materials"
            Sample.host)) = None.
Proof.
  apply (export_all_touches_only_its_files Posix.makedirs Posix.join
           "/tmp/materials" Sample.host "/tmp/materials/Flat.json").
  intros m [<-|[<-|[]]] Hu.
  - cbv. discriminate.
  - discriminate Hu.
Defined.

(** ** The selection *)

Lemma set_add_spec mat s :
  NoDup (map mat_id s) ->
  NoDup (map mat_id (set_add mat s)) /\
  (forall x, In x (set_add mat s) <-> In x s \/ (x = mat /\ ~ In (mat_id mat) (map mat_id s))) /\
  In (mat_id mat) (map mat_id (set_add mat s)).
Proof.
  intros Hnd. unfold set_add.
  destruct (existsb (fun m => Nat.eqb (mat_id m) (mat_id mat)) s) eqn:E.
  - apply existsb_exists in E. destruct E as (m & Hm & Heq).
    apply Nat.eqb_eq in Heq.
    assert (Hin : In (mat_id mat) (map mat_id s))
      by (rewrite <- Heq; now apply in_map).
    split; [exact Hnd|]. split; [|exact Hin].
    intros x. split; [auto|]. intros [H|[_ H]]; [exact H | contradiction].
  - assert (Hnot : ~ In (mat_id mat) (map mat_id s)).
    { intros Hin. apply in_map_iff in Hin. destruct Hin as (m & Heq & Hm).
      assert (existsb (fun m => Nat.eqb (mat_id m) (mat_id mat)) s = true).
      { apply existsb_exists. exists m. split; [exact Hm|].
        now apply Nat.eqb_eq. }
      congruence. }
    split; [|split].
    + rewrite map_app. simpl. apply NoDup_app; auto.
      * repeat constructor. intros [].
      * intros x Hx [<-|[]]. contradiction.
    + intros x. rewrite in_app_iff. simpl. split.
      * intros [H|[<-|[]]]; auto.
      * intros [H|[-> _]]; auto.
    + rewrite map_app, in_app_iff. simpl. auto.
Qed.

Lemma add_slots_spec slots s :
  node_material_set s ->
  node_material_set (add_slots slots s) /\
  (forall x, In x s -> In x (add_slots slots s)) /\
  (forall x, In x (add_slots slots s) -> In x s \/ In (Some x) slots) /\
  (forall m, In (Some m) slots -> mat_use_nodes m = true ->
     In (mat_id m) (map mat_id (add_slots slots s))).
Proof.
  revert s. induction slots as [|[mat|] rest IH]; intros s Hs.
  - simpl. destruct Hs. repeat split; auto; try tauto.
  - simpl add_slots.
    assert (Hs1 : node_material_set
                    (if mat_use_nodes mat then set_add mat s else s) /\
                  (forall x, In x s ->
                     In x (if mat_use_nodes mat then set_add mat s else s)) /\
                  (forall x,
                     In x (if mat_use_nodes mat then set_add mat s else s) ->
                     In x s \/ x = mat) /\
                  (mat_use_nodes mat = true ->
                   In (mat_id mat)
                      (map mat_id
                         (if mat_use_nodes mat then set_add mat s else s)))).
    { destruct Hs as [Hnd Hall]. destruct (mat_use_nodes mat) eqn:Hu.
      - destruct (set_add_spec mat s Hnd) as (Hnd' & Hiff & Hid).
        repeat split; auto.
        + apply Forall_forall. intros x Hx. apply Hiff in Hx.
          destruct Hx as [Hx|[-> _]]; auto.
          rewrite Forall_forall in Hall. auto.
        + intros x Hx. apply Hiff. auto.
        + intros x Hx. apply Hiff in Hx. tauto.
      - repeat split; auto. discriminate. }
    destruct Hs1 as (Hset & Hmono & Hfrom & Hid).
    destruct (IH _ Hset) as (Hset' & Hmono' & Hfrom' & Hid').
    split; [exact Hset'|]. split; [auto|]. split.
    + intros x Hx. destruct (Hfrom' x Hx) as [H|H]; [|simpl; auto].
      destruct (Hfrom x H) as [H'| ->]; simpl; auto.
    + intros m [Hm|Hm] Hu; [|auto]. inversion Hm; subst m.
      specialize (Hid Hu). apply in_map_iff in Hid.
      destruct Hid as (x & Hx & Hin). rewrite <- Hx.
      apply in_map. auto.
  - simpl add_slots. destruct (IH _ Hs) as (Hset' & Hmono' & Hfrom' & Hid').
    split; [exact Hset'|]. split; [auto|]. split.
    + intros x Hx. destruct (Hfrom' x Hx); simpl; auto.
    + intros m [Hm|Hm] Hu; [discriminate | auto].
Qed.

Lemma selected_materials_spec objs s mats :
  node_material_set s ->
  selected_materials objs s = Ok mats ->
  node_material_set mats /\
  (forall x, In x s -> In x mats) /\
  (forall x, In x mats ->
     In x s \/
     exists obj slots,
       In obj objs /\ obj_data_materials obj = Present slots /\
       In (Some x) slots) /\
  (forall obj slots m,
     In obj objs -> obj_data_materials obj = Present slots ->
     In (Some m) slots -> mat_use_nodes m = true ->
     In (mat_id m) (map mat_id mats)).
Proof.
  revert s. induction objs as [|obj rest IH]; intros s Hs H.
  - simpl in H. inversion H; subst. repeat split; auto.
    + apply Hs.
    + apply Hs.
    + intros obj slots m [].
  - simpl in H. destruct (obj_data_materials obj) as [| |slots] eqn:Ea;
      simpl in H; try discriminate.
    + destruct (IH _ Hs H) as (Hset & Hmono & Hfrom & Hcov).
      split; [exact Hset|]. split; [exact Hmono|]. split.
      * intros x Hx. destruct (Hfrom x Hx) as [?|(o & sl & ? & ? & ?)]; auto.
        right. exists o, sl. simpl. auto.
      * intros o sl m [<-|Ho] Hp; [congruence | eauto].
    + destruct (add_slots_spec slots s Hs) as (Hs' & Hm' & Hf' & Hc').
      destruct (IH _ Hs' H) as (Hset & Hmono & Hfrom & Hcov).
      split; [exact Hset|]. split; [auto|]. split.
      * intros x Hx. destruct (Hfrom x Hx) as [Hx'|(o & sl & ? & ? & ?)].
        -- destruct (Hf' x Hx'); auto. right. exists obj, slots. simpl. auto.
        -- right. exists o, sl. simpl. auto.
      * intros o sl m [<-|Ho] Hp Hin Hu; [|eauto].
        rewrite Ea in Hp. inversion Hp; subst sl.
        specialize (Hc' m Hin Hu). apply in_map_iff in Hc'.
        destruct Hc' as (x & Hx & Hxin). rewrite <- Hx.
        apply in_map. auto.
Qed.

(** X24.  The set of materials taken from the selection holds each host
    material once, however many objects and slots use it; every member uses
    nodes and sits in a slot of a selected object; and every node-using
    material in such a slot is in the set.  Empty slots, materials without
    nodes and objects whose data has no materials add nothing. *)
Theorem selected_materials_distinct (objs : list scene_object)
  (mats : list material) :
  selected_materials objs [] = Ok mats ->
  NoDup (map mat_id mats) /\
  (forall x, In x mats ->
     mat_use_nodes x = true /\
     exists obj slots,
       In obj objs /\ obj_data_materials obj = Present slots /\
       In (Some x) slots) /\
  (forall obj slots m,
     In obj objs -> obj_data_materials obj = Present slots ->
     In (Some m) slots -> mat_use_nodes m = true ->
     In (mat_id m) (map mat_id mats)).
Proof.
  intros H.
  assert (Hempty : node_material_set []) by (split; constructor).
  destruct (selected_materials_spec objs [] mats Hempty H)
    as ((Hnd & Hall) & _ & Hfrom & Hcov).
  split; [exact Hnd|]. split; [|exact Hcov].
  intros x Hx. split.
  - rewrite Forall_forall in Hall. auto.
  - destruct (Hfrom x Hx) as [[]|Hslot]. exact Hslot.
Qed.

Lemma selected_materials_distinct_witness :
  selected_materials (selected_objects Posix.scene) [] = Ok [Sample.metal] /\
  NoDup (map mat_id [Sample.metal]).
Proof.
  split; [reflexivity|].
  exact (proj1 (selected_materials_distinct (selected_objects Posix.scene)
                  [Sample.metal] eq_refl)).
Defined.

Section SelectionFacts.

Variable makedirs : string -> world -> result unit * world.
Variable path_join : string -> string -> string.
Variable set_order : list material -> list material.

Lemma export_each_ok directory mats w u w' :
  export_each path_join directory mats w = (Ok u, w') ->
  materials w' = materials w /\
  exists lines, console w' = console w ++ lines.
Proof.
  revert w. induction mats as [|m rest IH]; simpl; intros w H.
  - inversion H; subst. split; [reflexivity|]. exists [].
    now rewrite app_nil_r.
  - destruct (export_material_keeps_host (mat_name m)
                (Some (path_join directory (mat_name m ++ ".json")%string)) w)
      as (Hm & _ & _ & l1 & Hc).
    destruct (export_material_nodes_to_json (mat_name m)
                (Some (path_join directory (mat_name m ++ ".json")%string)) w)
      as [[r|e] w1]; [|discriminate].
    simpl in Hm, Hc. destruct (IH _ H) as (Hm' & l2 & Hc').
    split; [congruence|]. exists (l1 ++ l2).
    now rewrite Hc', Hc, app_assoc.
Qed.

(** X25.  When [export_selected_materials] completes, the host's materials
    are untouched and the last line printed is the summary; its count is
    the size of the set taken from the selection, so a material shared by
    several selected objects counts once, in whatever order the set is
    walked. *)
Theorem export_selected_summary (ctx : context) (directory : string)
  (w : world) :
  let w0 := snd (makedirs directory w) in
  let w' :=
    snd (export_selected_materials makedirs path_join set_order ctx
           directory w) in
  fst (export_selected_materials makedirs path_join set_order ctx directory w)
    = Ok tt ->
  exists mats lines,
    selected_materials (selected_objects ctx) [] = Ok mats /\
    NoDup (map mat_id mats) /\
    materials w' = materials w0 /\
    console w' =
      console w0 ++ lines
      ++ [("Exported " ++ str_of_nat (length mats) ++ " materials to "
           ++ directory)%string].
Proof.
  unfold export_selected_materials.
  destruct (makedirs directory w) as [[u|e] w0]; cbn [fst snd];
    [|discriminate].
  destruct (selected_materials (selected_objects ctx) []) as [mats|e] eqn:Es;
    cbn [fst snd]; [|discriminate].
  destruct (export_each path_join directory (set_order mats) w0)
    as [[u'|e] w1] eqn:E; cbn [fst snd]; [|discriminate].
  intros _. destruct (export_each_ok _ _ _ _ _ E) as (Hm & l & Hc).
  exists mats, l. split; [reflexivity|]. split.
  - assert (Hempty : node_material_set []) by (split; constructor).
    exact (proj1 (proj1 (selected_materials_spec _ _ _ Hempty Es))).
  - split; [exact Hm|]. cbn [console Host.print].
    rewrite Hc, <- app_assoc. reflexivity.
Qed.

End SelectionFacts.

Lemma export_selected_summary_witness :
  exists lines,
    console (snd (export_selected_materials Posix.makedirs Posix.join
                    Posix.set_order Posix.scene "/tmp/materials"
                    Sample.host)) =
    lines ++ ["Exported 1 materials to /tmp/materials"].
Proof.
  destruct (export_selected_summary Posix.makedirs Posix.join Posix.set_order
              Posix.scene "/tmp/materials" Sample.host eq_refl)
    as (mats & lines & Hs & _ & _ & Hc).
  exists lines. injection Hs as <-. exact Hc.
Defined.

(** ** The script *)

(** X26.  Run as the main script with an active object whose active
    material is not found under its name, or does not use nodes, the file
    stops with a [TypeError]: the exporter returned [None] and the next
    line subscripts it.  The one line of the exporter is all that was
    printed; no file is written and the catalog is never generated. *)
Theorem script_fails_on_material_without_nodes (ctx : context) (w : world)
  (obj : scene_object) (active : material) :
  active_object ctx = Some obj ->
  obj_active_material obj = Some active ->
  (Host.materials_get (mat_name active) w = None \/
   exists m, Host.materials_get (mat_name active) w = Some m /\
             mat_use_nodes m = false) ->
  exists line,
    main_block ctx w = (Raise (Exception "TypeError"), Host.print line w) /\
    script true ctx w = (Raise (Exception "TypeError"), Host.print line w).
Proof.
  intros Hobj Hact Hbad. unfold script, main_block.
  rewrite Hobj, Hact. unfold export_material_nodes_to_json.
  destruct Hbad as [->|(m & -> & ->)]; eexists; split; reflexivity.
Qed.

Lemma script_fails_on_material_without_nodes_witness :
  fst (script true Posix.flat_scene Sample.host) = Raise (Exception "TypeError")
  /\ files (snd (script true Posix.flat_scene Sample.host)) = [] /\
  console (snd (script true Posix.flat_scene Sample.host)) =
    ["Material 'Flat' doesn't use nodes"].
Proof.
  destruct (script_fails_on_material_without_nodes Posix.flat_scene
              Sample.host Posix.sphere Sample.flat eq_refl eq_refl)
    as (line & _ & Hs).
  - right. exists Sample.flat. split; reflexivity.
  - repeat split.
Defined.

Lemma catalog_document_ext w1 w2 :
  types w1 = types w2 -> version w1 = version w2 ->
  catalog_document w1 = catalog_document w2.
Proof.
  intros Ht Hv. unfold catalog_document, shader_node_types.
  now rewrite Ht, Hv.
Qed.

(** A catalog call with a path that returns. *)
Lemma generate_with_path_ok ch rest w doc w' :
  generate_master_shader_nodes_json (Some (String ch rest)) w = (Ok doc, w') ->
  doc = catalog_document w /\
  file_at (String ch rest) w' = Some (JsonFile (catalog_document w) 4) /\
  (forall p, p <> String ch rest -> file_at p w' = file_at p w) /\
  types w' = types w /\ version w' = version w.
Proof.
  destruct (generate_steps (Some (String ch rest)) w)
    as (w1 & Hf & _ & Hty & Hve & _ & ->).
  cbn [truthy_path].
  destruct (json_dump_to_spec (String ch rest) (catalog_document w) 4 w1)
    as (_ & _ & _ & Ht2 & Hv2 & Hother & Hres).
  destruct (Host.json_dump_to (String ch rest) (catalog_document w) 4 w1)
    as [[u|e] w2]; cbn [fst snd] in *; [|discriminate].
  intros H. inversion H; subst. destruct Hres as [_ Hfile].
  split; [reflexivity|]. split; [exact Hfile|]. split.
  - intros p Hp. specialize (Hother p Hp). unfold file_at in *.
    cbn [files Host.print]. congruence.
  - cbn [types version Host.print]. split; congruence.
Qed.

Lemma main_block_ok ctx w u w' :
  main_block ctx w = (Ok u, w') ->
  file_at "/tmp/blender_shader_nodes_master.json" w' =
    Some (JsonFile (catalog_document w) 4) /\
  types w' = types w /\ version w' = version w.
Proof.
  unfold main_block.
  set (after_material := match active_object ctx with
                         | Some obj => _
                         | None => _
                         end).
  assert (Hafter : types (snd after_material) = types w /\
                   version (snd after_material) = version w).
  { subst after_material.
    destruct (active_object ctx) as [obj|]; [|auto].
    destruct (obj_active_material obj) as [active|]; [|auto].
    destruct (export_material_keeps_host (mat_name active)
                (Some ("/tmp/" ++ mat_name active ++ "_nodes.json")%string) w)
      as (_ & Ht & Hv & _).
    destruct (export_material_nodes_to_json (mat_name active)
                (Some ("/tmp/" ++ mat_name active ++ "_nodes.json")%string) w)
      as [[[mat_data|]|e] wa]; cbn [snd] in *; auto.
    destruct (doc_len "nodes" mat_data); destruct (doc_len "links" mat_data);
      auto. }
  destruct after_material as [[t|e] wa]; [|discriminate].
  cbn [snd] in Hafter. destruct Hafter as [Hta Hva].
  destruct (generate_master_shader_nodes_json
              (Some "/tmp/blender_shader_nodes_master.json") wa)
    as [[master_data|e] wb] eqn:Eg; [|discriminate].
  destruct (generate_with_path_ok _ _ _ _ _ Eg) as (_ & Hfile & _ & Ht & Hv).
  rewrite (catalog_document_ext wa w Hta Hva) in Hfile.
  destruct (doc_len "shader_nodes" master_data); [|discriminate].
  intros H. inversion H; subst w'. unfold file_at in *.
  cbn [files types version Host.print]. repeat split; congruence.
Qed.

(** X27.  A run of the file as the main script that completes leaves the
    same catalog in two files: the path of the main block and the path of
    the last line both hold, with indent 4, the catalog of the registered
    types and version the host had at the start.  A load that is not the
    main script writes the second file only. *)
Theorem script_writes_catalog (is_main : bool) (ctx : context) (w : world) :
  let w' := snd (script is_main ctx w) in
  fst (script is_main ctx w) = Ok tt ->
  file_at "C:/tmp/shader_nodes_master.json" w' =
    Some (JsonFile (catalog_document w) 4) /\
  file_at "/tmp/blender_shader_nodes_master.json" w' =
    (if is_main then Some (JsonFile (catalog_document w) 4)
     else file_at "/tmp/blender_shader_nodes_master.json" w).
Proof.
  unfold script.
  assert (Hmain :
    forall u wm, (if is_main then main_block ctx w else (Ok tt, w)) = (Ok u, wm) ->
      file_at "/tmp/blender_shader_nodes_master.json" wm =
        (if is_main then Some (JsonFile (catalog_document w) 4)
         else file_at "/tmp/blender_shader_nodes_master.json" w) /\
      types wm = types w /\ version wm = version w).
  { intros u wm H. destruct is_main.
    - exact (main_block_ok _ _ _ _ H).
    - inversion H. auto. }
  destruct (if is_main then main_block ctx w else (Ok tt, w))
    as [[u|e] wm]; [|discriminate].
  destruct (Hmain u wm eq_refl) as (Hfirst & Ht & Hv).
  destruct (generate_master_shader_nodes_json
              (Some "C:/tmp/shader_nodes_master.json") wm)
    as [[doc|e] w2] eqn:Eg; [|discriminate].
  destruct (generate_with_path_ok _ _ _ _ _ Eg) as (_ & Hfile & Hother & _).
  rewrite (catalog_document_ext wm w Ht Hv) in Hfile.
  cbn [fst snd]. intros _. split; [exact Hfile|].
  rewrite Hother by discriminate. exact Hfirst.
Qed.

Lemma script_writes_catalog_witness :
  file_at "C:/tmp/shader_nodes_master.json"
    (snd (script true Posix.scene Sample.host)) =
    Some (JsonFile (catalog_document Sample.host) 4) /\
  file_at "/tmp/blender_shader_nodes_master.json"
    (snd (script true Posix.scene Sample.host)) =
    Some (JsonFile (catalog_document Sample.host) 4).
Proof.
  exact (script_writes_catalog true Posix.scene Sample.host eq_refl).
Defined.

(** ** Instances *)

Lemma socket_value_unsafe_iff_witness :
  is_json_serializable (normalize_socket_value Faulty.layers) = false.
Proof.
  apply (proj2 (socket_value_unsafe_iff Faulty.layers)).
  exists [VObj "PropertyGroup" (Some "layer") false None].
  repeat split.
Defined.

Lemma export_material_reads_only_witness :
  files (snd (export_material_nodes_to_json "Metal" (Some "") Sample.host)) =
    files Sample.host /\
  materials (snd (export_material_nodes_to_json "Metal" (Some "/tmp/m.json")
                    Sample.host)) = materials Sample.host.
Proof.
  destruct (export_material_reads_only "Metal" (Some "") Sample.host)
    as (_ & _ & _ & Hfiles & _).
  destruct (export_material_reads_only "Metal" (Some "/tmp/m.json")
              Sample.host) as (Hmats & _).
  split; [exact (Hfiles eq_refl) | exact Hmats].
Defined.
